(** * AmelieBenchmarkRunner: the batch retrieval engine

    A shallow embedding of [benchmarking/AmelieBenchmarkRunner.py] and the
    properties of its result accumulator, result writer and orchestrator.

    Python values are modelled as follows.
    - [float] is an IEEE-754 binary64 datum: [spec_float] with the
      operations of the standard library instantiated at precision 53.
    - [dict] is an association list with unique keys kept in insertion
      order (the iteration order of a Python dict).
    - [str] is [string]; the output directory is a dict from the paths of
      its files to their contents.
    - the clock and the remote service are oracles indexed by the number of
      calls made so far; everything the program does to the outside world
      is recorded in a trace of events. *)

From Stdlib Require Import List String Ascii ZArith Lia Bool Arith PeanoNat.
From Stdlib Require Import Permutation Sorted DecimalString.
From Stdlib Require Import SpecFloat.
Import ListNotations.

Local Open Scope string_scope.
Local Open Scope list_scope.

(** ** Python floats *)

Module PyFloat.

Definition prec : Z := 53.
Definition emax : Z := 1024.

Definition float : Type := spec_float.

(** Python's [<], [<=], [==] on floats; every comparison with NaN is
    [False]. *)
Definition ltb (x y : float) : bool := SFltb x y.
Definition leb (x y : float) : bool := SFleb x y.
Definition eqb (x y : float) : bool := SFeqb x y.
Definition geb (x y : float) : bool := SFleb y x.

Definition opp (x : float) : float := SFopp x.
Definition sub (x y : float) : float := SFsub prec emax x y.

Definition is_nan (x : float) : bool :=
  match x with S754_nan => true | _ => false end.

(** The float nearest to [n / d] (ties to even), with sign [s]. *)
Definition of_ratio (s : bool) (n d : positive) : float :=
  let '(q, e, l) := SFdiv_core_binary prec emax (Zpos n) 0 (Zpos d) 0 in
  binary_round_aux prec emax s q e l.

(** The float nearest to [m * 10 ^ e].  Exponents that are out of range
    whatever the digits are settled without computing the power: [digits]
    bounds the number of decimal digits of [m]. *)
Definition of_decimal (s : bool) (m : Z) (digits : Z) (e : Z) : float :=
  match m with
  | Zpos p =>
      if (400 <? e)%Z then S754_infinity s
      else if (e <? - (digits + 400))%Z then S754_zero s
      else if (0 <=? e)%Z then of_ratio s (p * Z.to_pos (10 ^ e)) 1
      else of_ratio s p (Z.to_pos (10 ^ (- e)))
  | _ => S754_zero s
  end.

Definition zero : float := S754_zero false.
Definition one : float := Eval vm_compute in of_decimal false 1 1 0.
Definition nan : float := S754_nan.

(** *** [float(s)] on a string *)

Definition is_space (c : ascii) : bool :=
  let n := nat_of_ascii c in
  (n =? 32)%nat || ((9 <=? n) && (n <=? 13))%nat || ((28 <=? n) && (n <=? 31))%nat.

Definition digit_of (c : ascii) : option Z :=
  let n := nat_of_ascii c in
  if ((48 <=? n) && (n <=? 57))%nat then Some (Z.of_nat (n - 48)) else None.

Definition is_digit (c : ascii) : bool :=
  match digit_of c with Some _ => true | None => false end.

Definition lower (c : ascii) : ascii :=
  let n := nat_of_ascii c in
  if ((65 <=? n) && (n <=? 90))%nat then ascii_of_nat (n + 32) else c.

Definition strip (l : list ascii) : list ascii :=
  let drop := fix drop (l : list ascii) : list ascii :=
    match l with
    | c :: l' => if is_space c then drop l' else l
    | [] => []
    end in
  rev (drop (rev (drop l))).

(** [digitpart ::= digit (["_"] digit)*]: the digits read are appended to
    the number [acc]; [cnt] counts them. *)
Fixpoint digitpart (acc cnt : Z) (l : list ascii) : Z * Z * list ascii :=
  match l with
  | c :: l' =>
      match digit_of c with
      | Some d => digitpart (10 * acc + d) (cnt + 1) l'
      | None =>
          if (Ascii.eqb c "_" && (0 <? cnt)%Z) then
            match l' with
            | c' :: _ => if is_digit c' then digitpart acc cnt l' else (acc, cnt, l)
            | [] => (acc, cnt, l)
            end
          else (acc, cnt, l)
      end
  | [] => (acc, cnt, l)
  end.

(** [exponent ::= ("e" | "E") [sign] digitpart]; without a well formed
    exponent nothing is consumed. *)
Definition exponent (l : list ascii) : Z * list ascii :=
  match l with
  | c :: l1 =>
      if Ascii.eqb (lower c) "e" then
        let '(neg, l2) :=
          match l1 with
          | "-"%char :: l2 => (true, l2)
          | "+"%char :: l2 => (false, l2)
          | _ => (false, l1)
          end in
        let '(e, cnt, l3) := digitpart 0 0 l2 in
        if (0 <? cnt)%Z then ((if neg then - e else e)%Z, l3) else (0%Z, l)
      else (0%Z, l)
  | [] => (0%Z, l)
  end.

(** [number ::= [digitpart] "." digitpart | digitpart ["."]], followed by
    an optional exponent and nothing else. *)
Definition floatnumber (s : bool) (l : list ascii) : option float :=
  let '(m1, c1, l1) := digitpart 0 0 l in
  let '(m, c2, l2) :=
    match l1 with
    | "."%char :: l1' => let '(m, c, l2) := digitpart m1 0 l1' in (m, c, l2)
    | _ => (m1, 0%Z, l1)
    end in
  if (0 <? c1 + c2)%Z then
    match exponent l2 with
    | (e, []) => Some (of_decimal s m (c1 + c2) (e - c2))
    | _ => None
    end
  else None.

Definition of_string (str : string) : option float :=
  let l := strip (list_ascii_of_string str) in
  let '(s, l) :=
    match l with
    | "-"%char :: l' => (true, l')
    | "+"%char :: l' => (false, l')
    | _ => (false, l)
    end in
  let w := string_of_list_ascii (map lower l) in
  if String.eqb w "inf" || String.eqb w "infinity" then Some (S754_infinity s)
  else if String.eqb w "nan" then Some S754_nan
  else floatnumber s l.

(** *** [float(n)] on an integer: [OverflowError] beyond the finite range *)

Definition of_int (n : Z) : option float :=
  match binary_normalize prec emax n 0 false with
  | S754_infinity _ => None
  | x => Some x
  end.

(** *** [str(x)]: the shortest decimal string that reads back as [x] *)

Definition str_Z (n : Z) : string := NilZero.string_of_int (Z.to_int n).

Definition ndigits (n : Z) : Z := Z.of_nat (String.length (str_Z n)).

Definition same (x y : float) : bool :=
  match x, y with
  | S754_finite s m e, S754_finite s' m' e' => Bool.eqb s s' && Pos.eqb m m' && Z.eqb e e'
  | S754_zero s, S754_zero s' => Bool.eqb s s'
  | S754_infinity s, S754_infinity s' => Bool.eqb s s'
  | S754_nan, S754_nan => true
  | _, _ => false
  end.

(** [m * 2 ^ e] as a fraction. *)
Definition ratio_of (m : positive) (e : Z) : Z * Z :=
  if (0 <=? e)%Z then (Zpos m * 2 ^ e, 1)%Z else (Zpos m, 2 ^ (- e))%Z.

(** The position of the decimal point: [10 ^ (decpt - 1) <= a / b < 10 ^ decpt]. *)
Definition decpt_of (a b : Z) : Z :=
  if (b <=? a)%Z then ndigits (a / b) else (1 - ndigits ((b - 1) / a))%Z.

(** The integers next to [a / b * 10 ^ s], the nearer one first. *)
Definition scaled (a b s : Z) : Z * Z :=
  let '(num, den) := if (0 <=? s)%Z then (a * 10 ^ s, b)%Z else (a, b * 10 ^ (- s))%Z in
  let lo := (num / den)%Z in
  let r := (num mod den)%Z in
  match (2 * r ?= den)%Z with
  | Lt => (lo, lo + 1)%Z
  | Gt => (lo + 1, lo)%Z
  | Eq => if Z.even lo then (lo, lo + 1)%Z else (lo + 1, lo)%Z
  end.

Definition reads_back (x : float) (c s : Z) : bool :=
  same x (of_decimal false c (ndigits c) (- s)).

(** Tries [n], [n + 1], ... significant digits; 17 always suffice. *)
Fixpoint shortest (fuel : nat) (x : float) (a b decpt n : Z) : Z * Z :=
  let s := (n - decpt)%Z in
  let '(c1, c2) := scaled a b s in
  match fuel with
  | O => (c1, s)
  | S fuel' =>
      if reads_back x c1 s then (c1, s)
      else if reads_back x c2 s then (c2, s)
      else shortest fuel' x a b decpt (n + 1)
  end.

Definition strip_zeros (l : list ascii) : list ascii :=
  let drop := fix drop (l : list ascii) : list ascii :=
    match l with
    | c :: l' => if Ascii.eqb c "0" then drop l' else l
    | [] => []
    end in
  rev (drop (rev l)).

Definition zeros (n : Z) : list ascii := repeat "0"%char (Z.to_nat n).

(** The layout of [repr]: plain notation when [-4 < decpt <= 16], and
    otherwise one digit before the point and a signed exponent of at least
    two digits. *)
Definition layout (ds : list ascii) (decpt : Z) : list ascii :=
  let nd := Z.of_nat (List.length ds) in
  if ((-4 <? decpt) && (decpt <=? 16))%Z then
    if (decpt <=? 0)%Z then "0"%char :: "."%char :: zeros (- decpt) ++ ds
    else if (decpt <? nd)%Z then
      firstn (Z.to_nat decpt) ds ++ "."%char :: skipn (Z.to_nat decpt) ds
    else ds ++ zeros (decpt - nd) ++ ["."%char; "0"%char]
  else
    let e := (decpt - 1)%Z in
    let es := list_ascii_of_string (str_Z (Z.abs e)) in
    let es := if (Z.abs e <? 10)%Z then "0"%char :: es else es in
    firstn 1 ds ++ (match skipn 1 ds with [] => [] | tl => "."%char :: tl end)
      ++ "e"%char :: (if (e <? 0)%Z then "-"%char else "+"%char) :: es.

Definition to_string (x : float) : string :=
  match x with
  | S754_nan => "nan"
  | S754_infinity s => if s then "-inf" else "inf"
  | S754_zero s => if s then "-0.0" else "0.0"
  | S754_finite s m e =>
      let '(a, b) := ratio_of m e in
      let decpt := decpt_of a b in
      let '(c, sc) := shortest 17 (S754_finite false m e) a b decpt 1 in
      let ds := list_ascii_of_string (str_Z c) in
      let body := layout (strip_zeros ds) (Z.of_nat (List.length ds) - sc) in
      string_of_list_ascii (if s then "-"%char :: body else body)
  end.

End PyFloat.

(** ** Python dictionaries: unique keys, insertion order *)

Module Dict.
Section Dict.
Context {V : Type}.

Definition dict : Type := list (string * V).

(** [d.get(k)] *)
Fixpoint get (k : string) (d : dict) : option V :=
  match d with
  | [] => None
  | (k', v) :: d' => if String.eqb k' k then Some v else get k d'
  end.

(** [d[k] = v]: an existing key keeps its place, a new key goes last. *)
Fixpoint set (k : string) (v : V) (d : dict) : dict :=
  match d with
  | [] => [(k, v)]
  | (k', v') :: d' =>
      if String.eqb k' k then (k', v) :: d' else (k', v') :: set k v d'
  end.

(** [d.keys()], also the order in which [for k in d] visits the keys. *)
Definition keys (d : dict) : list string := map fst d.

Definition wf (d : dict) : Prop := NoDup (keys d).
End Dict.
Arguments dict : clear implicits.
End Dict.

(** ** [list.sort] and [sorted]

    CPython sorts a list of fewer than 64 items by taking the run at its
    head ([count_run], a descending run being reversed in place) and
    inserting the remaining items one by one by binary search
    ([binarysort]); this is [Objects/listobject.c] as of CPython 3.11.
    Longer lists are cut in such runs which are then merged; whenever [<]
    orders the keys consistently both give the one stable sorted
    arrangement, which is what [listsort] computes for every length.
    [lt] is the comparison [ISLT] of the sort. *)

Module ListSort.
Section Sort.
Context {A : Type}.
Variable lt : A -> A -> bool.

Fixpoint run_asc (prev : A) (l : list A) : list A * list A :=
  match l with
  | x :: l' =>
      if lt x prev then ([], l)
      else let '(r, rest) := run_asc x l' in (x :: r, rest)
  | [] => ([], [])
  end.

Fixpoint run_desc (prev : A) (l : list A) : list A * list A :=
  match l with
  | x :: l' =>
      if lt x prev then let '(r, rest) := run_desc x l' in (x :: r, rest)
      else ([], l)
  | [] => ([], [])
  end.

(** The run at the head of [l], in ascending order, and what follows it. *)
Definition count_run (l : list A) : list A * list A :=
  match l with
  | x :: y :: l' =>
      if lt y x then let '(r, rest) := run_desc y l' in (rev (x :: y :: r), rest)
      else let '(r, rest) := run_asc y l' in (x :: y :: r, rest)
  | _ => (l, [])
  end.

(** The binary search of [binarysort] in the slice [mid], which lies
    between [lo] and [hi]: the probe is the item at the middle of [mid]. *)
Fixpoint bisect (fuel : nat) (pivot : A) (lo mid hi : list A) : list A * list A :=
  match fuel, mid with
  | S fuel', _ :: _ =>
      let p := (List.length mid / 2)%nat in
      match skipn p mid with
      | x :: after =>
          if lt pivot x then bisect fuel' pivot lo (firstn p mid) (x :: after ++ hi)
          else bisect fuel' pivot (lo ++ firstn p mid ++ [x]) after hi
      | [] => (lo ++ mid, hi)
      end
  | _, _ => (lo ++ mid, hi)
  end.

Definition binary_insert (a : list A) (pivot : A) : list A :=
  let '(before, after) := bisect (List.length a) pivot [] a [] in
  before ++ pivot :: after.

Definition binarysort (run rest : list A) : list A :=
  fold_left binary_insert rest run.

Definition listsort (l : list A) : list A :=
  let '(run, rest) := count_run l in binarysort run rest.

(** A reverse sort reverses the list, sorts it, and reverses the result. *)
Definition sort (reverse : bool) (l : list A) : list A :=
  if reverse then rev (listsort (rev l)) else listsort l.

(** The stable sort by straight insertion, to which [listsort] is
    compared: [x] goes in front of the first item that is not below it. *)
Fixpoint linsert (x : A) (s : list A) : list A :=
  match s with
  | y :: s' => if lt y x then y :: linsert x s' else x :: s
  | [] => [x]
  end.

Definition isort (l : list A) : list A := fold_right linsert [] l.

(** [x] goes in front of the first item that is above it. *)
Fixpoint rinsert (s : list A) (x : A) : list A :=
  match s with
  | y :: s' => if lt x y then x :: s else y :: rinsert s' x
  | [] => [x]
  end.

(** No item is below an item that comes before it. *)
Definition ascending (s : list A) : Prop :=
  StronglySorted (fun x y => lt y x = false) s.
End Sort.

(** [sorted(iterable, key=..., reverse=...)] on items whose keys have
    already been computed: items travel with their keys, which are floats. *)
Definition by_key {B : Type} (a b : PyFloat.float * B) : bool :=
  PyFloat.ltb (fst a) (fst b).

Definition sorted {B : Type} (keyed : list (PyFloat.float * B)) (reverse : bool) : list B :=
  map snd (sort by_key reverse keyed).

(** [x] comes before [y] in [l]. *)
Definition before {B : Type} (x y : B) (l : list B) : Prop :=
  exists l1 l2 l3, l = l1 ++ x :: l2 ++ y :: l3.

End ListSort.

(** ** Exceptions *)

Inductive exn : Type :=
| ConnectionError
| ReadTimeout
| HTTPError (status : Z)
| RequestException
| JSONDecodeError
| ValueError
| OverflowError
| IndexError
| TypeError.

Inductive result (A : Type) : Type :=
| Ok (a : A)
| Raise (e : exn).
Arguments Ok {A} a.
Arguments Raise {A} e.

(** ** The data of the runner *)

(** A score as the JSON decoder hands it over: a string, or a number. *)
Inductive score_field : Type :=
| JStr (s : string)
| JInt (n : Z)
| JFloat (x : PyFloat.float).

(** One element of the response: [[geneSymbol, [[score, pubmedId], ...]]]. *)
Definition gene_entry : Type := string * list (score_field * string).
Definition response : Type := list gene_entry.

(** [lovdAmelieOutput]: gene symbol to a list of [[pubmedId, score]]. *)
Definition SampleResult : Type := Dict.dict (list (string * PyFloat.float)).

(** [float(v)] *)
Definition py_float (v : score_field) : result PyFloat.float :=
  match v with
  | JStr s =>
      match PyFloat.of_string s with Some x => Ok x | None => Raise ValueError end
  | JInt n =>
      match PyFloat.of_int n with Some x => Ok x | None => Raise OverflowError end
  | JFloat x => Ok x
  end.

(** ** The result accumulator (lines 133-145) *)

(** The loop over the score/pubmed ID sets of one gene. *)
Fixpoint pubmed_loop (l : list (score_field * string))
    (genePubmedScores : list (string * PyFloat.float))
    : result (list (string * PyFloat.float)) :=
  match l with
  | [] => Ok genePubmedScores
  | pubmedScores :: l' =>
      match py_float (fst pubmedScores) with
      | Ok score =>
          let pubmedId := snd pubmedScores in
          pubmed_loop l' (genePubmedScores ++ [(pubmedId, score)])
      | Raise e => Raise e
      end
  end.

Definition digest_gene (lovdAmelieOutput : SampleResult) (gene : gene_entry)
    : result SampleResult :=
  let geneSymbol := fst gene in
  match pubmed_loop (snd gene) [] with
  | Ok genePubmedScores =>
      if (0 <? List.length genePubmedScores)%nat
      then Ok (Dict.set geneSymbol genePubmedScores lovdAmelieOutput)
      else Ok lovdAmelieOutput
  | Raise e => Raise e
  end.

(** The loop over the genes of one response. *)
Fixpoint digest (lovdAmelieOutput : SampleResult) (genes : response)
    : result SampleResult :=
  match genes with
  | [] => Ok lovdAmelieOutput
  | gene :: genes' =>
      match digest_gene lovdAmelieOutput gene with
      | Ok d => digest d genes'
      | Raise e => Raise e
      end
  end.

(** ** The result writer (lines 151-186) *)

(** The sort key [lovdAmelieOutput[k][0][1]]. *)
Definition first_score (lovdAmelieOutput : SampleResult) (k : string)
    : result PyFloat.float :=
  match Dict.get k lovdAmelieOutput with
  | Some (entry :: _) => Ok (snd entry)
  | _ => Raise IndexError
  end.

(** The keys are computed for all the items before the sort starts. *)
Fixpoint with_keys (lovdAmelieOutput : SampleResult) (ks : list string)
    : result (list (PyFloat.float * string)) :=
  match ks with
  | [] => Ok []
  | k :: ks' =>
      match first_score lovdAmelieOutput k with
      | Ok s =>
          match with_keys lovdAmelieOutput ks' with
          | Ok l => Ok ((s, k) :: l)
          | Raise e => Raise e
          end
      | Raise e => Raise e
      end
  end.

Definition retrieveSortedAmelieList (lovdAmelieOutput : SampleResult)
    : result (list string) :=
  match with_keys lovdAmelieOutput (Dict.keys lovdAmelieOutput) with
  | Ok keyed => Ok (ListSort.sorted keyed true)
  | Raise e => Raise e
  end.

Definition tab : string := String "009"%char EmptyString.
Definition newline : string := String "010"%char EmptyString.

(** The inner loop of the writer: what it appends to the file for the
    entries of one gene, [i] being the index [enumerate] has reached. *)
Fixpoint write_scores (i : nat) (l : list (string * PyFloat.float)) (text : string)
    : string :=
  match l with
  | [] => text
  | pubmedScore :: l' =>
      let text := if (0 <? i)%nat then (text ++ ",")%string else text in
      let text :=
        (text ++ (fst pubmedScore ++ ":" ++ PyFloat.to_string (snd pubmedScore)))%string in
      write_scores (S i) l' text
  end.

(** The outer loop: the text of the file so far, and the exception that
    stopped the loop if one did. *)
Fixpoint write_genes (lovdAmelieOutput : SampleResult) (genes : list string)
    (text : string) : string * option exn :=
  match genes with
  | [] => (text, None)
  | gene :: genes' =>
      let text := (text ++ (gene ++ tab))%string in
      match Dict.get gene lovdAmelieOutput with
      | Some l =>
          let text := write_scores 0 l text in
          let text := (text ++ newline)%string in
          write_genes lovdAmelieOutput genes' text
      | None => (text, Some TypeError)
      end
  end.

Definition header : string := ("gene" ++ tab ++ "scores" ++ newline)%string.

(** The content [writeLovdResultsToFile] leaves in the file it opened. *)
Definition lovd_file (lovdAmelieOutput : SampleResult) : string * option exn :=
  let text := header in
  match retrieveSortedAmelieList lovdAmelieOutput with
  | Ok genes => write_genes lovdAmelieOutput genes text
  | Raise e => (text, Some e)
  end.

(** ** The outside world *)

(** What the program does that can be observed from outside. *)
Inductive event : Type :=
| Print (line : string)
| Sleep (seconds : PyFloat.float)
| Post (genes phenotypes : string)
| Write (path text : string).

(** What [post] gives back: an exception, or a response with its status
    code and its body, decoded if it is JSON. *)
Inductive reply : Type :=
| Fails (e : exn)
| Answers (status : Z) (body : option response).

(** The environment of a run: the reading of the [n]-th call of [time()],
    and the reply to the [n]-th [post]. *)
Record env : Type := {
  clock : nat -> PyFloat.float;
  net : nat -> string -> string -> reply
}.

Record state : Type := {
  files : Dict.dict string;
  requestTime : PyFloat.float;
  ticks : nat;
  posts : nat
}.

(** How a run can stop before its end: [exit(e)], or an exception nobody
    catches. *)
Inductive halt : Type :=
| SystemExit (e : exn)
| Uncaught (e : exn).

Inductive res (A : Type) : Type :=
| Ret (a : A)
| Halt (h : halt).
Arguments Ret {A} a.
Arguments Halt {A} h.

(** A command: the events it emits, the state it leaves, and its value
    unless the run stopped. *)
Definition M (A : Type) : Type := state -> list event * state * res A.

Definition ret {A : Type} (a : A) : M A := fun w => ([], w, Ret a).

Definition bind {A B : Type} (m : M A) (f : A -> M B) : M B :=
  fun w =>
    match m w with
    | (t1, w1, Ret a) => let '(t2, w2, r) := f a w1 in (t1 ++ t2, w2, r)
    | (t1, w1, Halt h) => (t1, w1, Halt h)
    end.

Notation "x <- m ;; k" := (bind m (fun x => k))
  (at level 61, m at next level, right associativity).
Notation "m ;; k" := (bind m (fun _ => k))
  (at level 61, right associativity).

Definition emit (e : event) : M unit := fun w => ([e], w, Ret tt).
Definition stop {A : Type} (h : halt) : M A := fun w => ([], w, Halt h).

Definition print (line : string) : M unit := emit (Print line).

(** [time()] *)
Definition time (E : env) : M PyFloat.float :=
  fun w =>
    ([], {| files := files w; requestTime := requestTime w;
            ticks := S (ticks w); posts := posts w |},
     Ret (clock E (ticks w))).

Definition get_requestTime : M PyFloat.float :=
  fun w => ([], w, Ret (requestTime w)).

Definition set_requestTime (t : PyFloat.float) : M unit :=
  fun w =>
    ([], {| files := files w; requestTime := t;
            ticks := ticks w; posts := posts w |}, Ret tt).

(** [isfile(path)] *)
Definition isfile (path : string) : M bool :=
  fun w =>
    ([], w, Ret (match Dict.get path (files w) with Some _ => true | None => false end)).

(** [post(url, data={"genes": genes, "phenotypes": phenotypes})] *)
Definition post (E : env) (genes phenotypes : string) : M reply :=
  fun w =>
    ([Post genes phenotypes],
     {| files := files w; requestTime := requestTime w;
        ticks := ticks w; posts := S (posts w) |},
     Ret (net E (posts w) genes phenotypes)).

(** The file [path] is created or replaced with [text]. *)
Definition write_file (path text : string) : M unit :=
  fun w =>
    ([Write path text],
     {| files := Dict.set path text (files w); requestTime := requestTime w;
        ticks := ticks w; posts := posts w |}, Ret tt).

(** [sep.join(l)] *)
Definition join (sep : string) (l : list string) : string := String.concat sep l.

(** [str(n)] on a natural number *)
Definition str_nat (n : nat) : string := NilZero.string_of_uint (Nat.to_uint n).

(** ** BenchmarkGenerics *)

(** Modelled from the spec: [BenchmarkGenerics.chunkList], which is not
    part of the sources at hand.  The list is cut in groups of [size] items
    in order; only the last group may be shorter. *)
Fixpoint chunkList_from (fuel : nat) (l : list string) (size : nat) : list (list string) :=
  match fuel, l with
  | S fuel', _ :: _ => firstn size l :: chunkList_from fuel' (skipn size l) size
  | _, _ => []
  end.

Definition chunkList (l : list string) (size : nat) : list (list string) :=
  chunkList_from (List.length l) l size.

(** Modelled from the spec: [BenchmarkGenerics.waitTillElapsed], which is
    not part of the sources at hand.  When the elapsed time has reached the
    minimum interval it returns at once; otherwise it blocks for the
    difference. *)
Definition waitTillElapsed (minInterval elapsed : PyFloat.float) : M unit :=
  if PyFloat.geb elapsed minInterval then ret tt
  else emit (Sleep (PyFloat.sub minInterval elapsed)).

(** ** The orchestrator (lines 82-148) *)

Definition writeLovdResultsToFile (lovdAmelieOutput : SampleResult) (outFile : string)
    : M unit :=
  match lovd_file lovdAmelieOutput with
  | (text, None) => write_file outFile text
  | (text, Some e) => write_file outFile text ;; stop (Uncaught e)
  end.

(** [response.raise_for_status()] raises for the client and server error
    statuses. *)
Definition raise_for_status (status : Z) : result unit :=
  if ((400 <=? status) && (status <? 600))%Z then Raise (HTTPError status) else Ok tt.

(** The [except] clause: the three exceptions it names end the run through
    [exit(e)]; any other goes up uncaught. *)
Definition caught (e : exn) : bool :=
  match e with
  | ConnectionError | HTTPError _ | ReadTimeout => true
  | _ => false
  end.

Definition raised {A : Type} (e : exn) : M A :=
  stop (if caught e then SystemExit e else Uncaught e).

(** The [try] block: the request and the check of its status. *)
Definition request (E : env) (genes phenotypes : string) : M (option response) :=
  r <- post E genes phenotypes ;;
  match r with
  | Fails e => raised e
  | Answers status body =>
      match raise_for_status status with
      | Raise e => raised e
      | Ok _ => ret body
      end
  end.

(** The body of the loop over the chunks. *)
Definition chunk_body (E : env) (lovdPhenotypes : Dict.dict (list string))
    (lovd : string) (total i : nat) (hgncsChunk : list string)
    (lovdAmelieOutput : SampleResult) : M SampleResult :=
  print ("chunk: " ++ str_nat (i + 1) ++ "/" ++ str_nat total)%string ;;
  now <- time E ;;
  last <- get_requestTime ;;
  waitTillElapsed PyFloat.one (PyFloat.sub now last) ;;
  body <-
    match Dict.get lovd lovdPhenotypes with
    | Some phenotypes => request E (join "," hgncsChunk) (join "," phenotypes)
    | None => stop (Uncaught TypeError)
    end ;;
  now <- time E ;;
  set_requestTime now ;;
  match body with
  | None => stop (Uncaught JSONDecodeError)
  | Some genes =>
      match digest lovdAmelieOutput genes with
      | Ok d => ret d
      | Raise e => stop (Uncaught e)
      end
  end.

Fixpoint chunk_loop (E : env) (lovdPhenotypes : Dict.dict (list string))
    (lovd : string) (total i : nat) (chunks : list (list string))
    (lovdAmelieOutput : SampleResult) : M SampleResult :=
  match chunks with
  | [] => ret lovdAmelieOutput
  | hgncsChunk :: chunks' =>
      d <- chunk_body E lovdPhenotypes lovd total i hgncsChunk lovdAmelieOutput ;;
      chunk_loop E lovdPhenotypes lovd total (S i) chunks' d
  end.

Definition out_file (outDir lovd : string) : string :=
  (outDir ++ "/" ++ lovd ++ ".tsv")%string.

(** What is done for a LOVD that is not skipped. *)
Definition process_lovd (E : env) (lovdPhenotypes : Dict.dict (list string))
    (hgncs : list (list string)) (outFile : string) (lovd : string) : M unit :=
  print ("# processing: " ++ lovd)%string ;;
  lovdAmelieOutput <-
    chunk_loop E lovdPhenotypes lovd (List.length hgncs) 0 hgncs [] ;;
  writeLovdResultsToFile lovdAmelieOutput outFile.

(** The body of the loop over the LOVDs. *)
Definition lovd_body (E : env) (lovdPhenotypes : Dict.dict (list string))
    (hgncs : list (list string)) (outDir : string) (lovd : string) : M unit :=
  let outFile := out_file outDir lovd in
  present <- isfile outFile ;;
  if present then print ("# skipping: " ++ lovd)%string
  else process_lovd E lovdPhenotypes hgncs outFile lovd.

Fixpoint lovd_loop (E : env) (lovdPhenotypes : Dict.dict (list string))
    (hgncs : list (list string)) (outDir : string) (lovds : list string) : M unit :=
  match lovds with
  | [] => ret tt
  | lovd :: lovds' =>
      lovd_body E lovdPhenotypes hgncs outDir lovd ;;
      lovd_loop E lovdPhenotypes hgncs outDir lovds'
  end.

Definition retrieveAmelieResults (E : env) (lovdPhenotypes : Dict.dict (list string))
    (hgncs : list string) (outDir : string) : M unit :=
  let hgncs := chunkList hgncs 1000 in
  now <- time E ;;
  set_requestTime (PyFloat.opp now) ;;
  lovd_loop E lovdPhenotypes hgncs outDir (Dict.keys lovdPhenotypes).

(** A run starts with the files already in the output directory. *)
Definition start (fs : Dict.dict string) : state :=
  {| files := fs; requestTime := PyFloat.zero; ticks := 0; posts := 0 |}.

(** ** The vocabulary of the properties *)

(** The text of one entry, and the line of one gene in the file. *)
Definition entry_text (e : string * PyFloat.float) : string :=
  (fst e ++ ":" ++ PyFloat.to_string (snd e))%string.

Definition gene_line (d : SampleResult) (gene : string) : string :=
  match Dict.get gene d with
  | Some l => (gene ++ tab ++ join "," (map entry_text l) ++ newline)%string
  | None => (gene ++ tab)%string
  end.

(** The sort key of a gene; NaN stands for a missing one. *)
Definition score_of (d : SampleResult) (k : string) : PyFloat.float :=
  match first_score d k with Ok s => s | Raise _ => PyFloat.nan end.

(** The invariant of a SampleResult: every value list is non-empty. *)
Definition populated (d : SampleResult) : bool :=
  forallb (fun kv => match snd kv with [] => false | _ :: _ => true end) d.

(** Every gene has a first score, and it is a number. *)
Definition first_is_number (kv : string * list (string * PyFloat.float)) : bool :=
  match snd kv with
  | e :: _ => negb (PyFloat.is_nan (snd e))
  | [] => false
  end.

Definition comparable (d : SampleResult) : bool := forallb first_is_number d.

(** The genes are listed by first score, highest first. *)
Definition descending (d : SampleResult) (genes : list string) : Prop :=
  forall g1 g2 s1 s2,
    ListSort.before g1 g2 genes ->
    first_score d g1 = Ok s1 -> first_score d g2 = Ok s2 ->
    PyFloat.geb s1 s2 = true.

(** Genes with equal first scores are listed in the order of the dict. *)
Definition stable (d : SampleResult) (genes : list string) : Prop :=
  forall g1 g2 s1 s2,
    ListSort.before g1 g2 (Dict.keys d) ->
    first_score d g1 = Ok s1 -> first_score d g2 = Ok s2 ->
    PyFloat.eqb s1 s2 = true ->
    ListSort.before g1 g2 genes.

(** What the loop over the chunks does to [lovdAmelieOutput], given the
    decoded bodies of the responses in the order of the chunks. *)
Fixpoint merge_chunks (d : SampleResult) (responses : list response)
    : result SampleResult :=
  match responses with
  | [] => Ok d
  | r :: responses' =>
      match digest d r with
      | Ok d' => merge_chunks d' responses'
      | Raise e => Raise e
      end
  end.

(** The last entry for [gene] among [entries], and the last one that has
    at least one score. *)
Fixpoint last_entry (gene : string) (entries : list gene_entry)
    : option (list (score_field * string)) :=
  match entries with
  | [] => None
  | entry :: entries' =>
      match last_entry gene entries' with
      | Some l => Some l
      | None => if String.eqb (fst entry) gene then Some (snd entry) else None
      end
  end.

(** Every gene is mapped to the list built from its last entry. *)
Definition latest_entry_wins (responses : list response) (d : SampleResult) : Prop :=
  forall g raw l,
    last_entry g (List.concat responses) = Some raw ->
    pubmed_loop raw [] = Ok l ->
    Dict.get g d = Some l.

Definition filled (entry : gene_entry) : bool :=
  match snd entry with [] => false | _ :: _ => true end.

Definition last_filled_entry (gene : string) (entries : list gene_entry)
    : option (list (score_field * string)) :=
  last_entry gene (filter filled entries).

(** The exception a reply makes the [try] block raise, if any. *)
Definition failed (r : reply) : option exn :=
  match r with
  | Fails e => Some e
  | Answers status _ =>
      match raise_for_status status with Raise e => Some e | Ok _ => None end
  end.

(** The state once [requestTime] has got its initial value. *)
Definition seeded (E : env) (w : state) : state :=
  {| files := files w; requestTime := PyFloat.opp (clock E (ticks w));
     ticks := S (ticks w); posts := posts w |}.

(** The states and events of one turn of the loop over the chunks: the
    line it prints, what the rate limiter does, and the state after the
    clock was read, after the request was sent, and after its answer came. *)
Definition chunk_line (total i : nat) : event :=
  Print ("chunk: " ++ str_nat (i + 1) ++ "/" ++ str_nat total)%string.

Definition gate_events (E : env) (w : state) : list event :=
  let elapsed := PyFloat.sub (clock E (ticks w)) (requestTime w) in
  if PyFloat.geb elapsed PyFloat.one then []
  else [Sleep (PyFloat.sub PyFloat.one elapsed)].

Definition ticked (w : state) : state :=
  {| files := files w; requestTime := requestTime w;
     ticks := S (ticks w); posts := posts w |}.

Definition posted (w : state) : state :=
  {| files := files w; requestTime := requestTime w;
     ticks := S (ticks w); posts := S (posts w) |}.

Definition answered (E : env) (w : state) : state :=
  {| files := files w; requestTime := clock E (S (ticks w));
     ticks := S (S (ticks w)); posts := S (posts w) |}.

(** Events that neither reach the service nor touch a file. *)
Definition quiet (ev : event) : bool :=
  match ev with
  | Print _ | Sleep _ => true
  | Post _ _ | Write _ _ => false
  end.





(** Some floats and SampleResults to try the writer on. *)
Definition f0 : PyFloat.float := PyFloat.zero.
Definition f1 : PyFloat.float := PyFloat.one.
Definition f9_5 : PyFloat.float := Eval vm_compute in PyFloat.of_decimal false 95 2 (-1).
Definition f3_1 : PyFloat.float := Eval vm_compute in PyFloat.of_decimal false 31 2 (-1).
Definition f5 : PyFloat.float := Eval vm_compute in PyFloat.of_decimal false 5 1 0.
Definition f9 : PyFloat.float := Eval vm_compute in PyFloat.of_decimal false 9 1 0.

Definition brca1_result : SampleResult :=
  [("BRCA1", [("pm1", f9_5); ("pm2", f3_1)])].

Definition three_genes : SampleResult :=
  [("BRCA1", [("pm1", f9)]); ("TP53", [("pm2", f5)]); ("EGFR", [("pm3", f9)])].

Definition nan_first : SampleResult :=
  [("A", [("pm1", PyFloat.nan)]); ("B", [("pm2", f1)])].

Definition f0_25 : PyFloat.float := Eval vm_compute in PyFloat.of_decimal false 25 2 (-2).
Definition f0_5 : PyFloat.float := Eval vm_compute in PyFloat.of_decimal false 5 1 (-1).
Definition f0_75 : PyFloat.float := Eval vm_compute in PyFloat.of_decimal false 75 2 (-2).
Definition f_2023 : PyFloat.float :=
  Eval vm_compute in PyFloat.of_decimal false 1700000000 10 0.

Definition nan_among_seven : SampleResult :=
  [("g0", [("p", f0)]); ("g1", [("p", f0)]); ("g2", [("p", f0)]);
   ("g3", [("p", f0)]); ("g4", [("p", PyFloat.nan)]); ("g5", [("p", f0)]);
   ("g6", [("p", f1)])].

(** Responses, samples and environments to try the accumulator and the
    orchestrator on. *)
Definition brca1_response : response :=
  [("BRCA1", [(JStr "9.5", "pm1"); (JStr "3.1", "pm2")]); ("TP53", [])].

Definition overwritten : list response :=
  [[("G", [(JStr "1.0", "p")])]; [("G", [(JStr "9.5", "q"); (JStr "3.1", "q")])]].

Definition emptied : list response :=
  [[("G", [(JStr "1.0", "p")])]; [("G", [])]].

(** Responses in which a score reads [nan]. *)
Definition nan_first_response : response :=
  [("A", [(JStr "nan", "pm1")]); ("B", [(JStr "1.0", "pm2")])].

Definition nan_among_seven_response : response :=
  [("g0", [(JStr "0.0", "p")]); ("g1", [(JStr "0.0", "p")]);
   ("g2", [(JStr "0.0", "p")]); ("g3", [(JStr "0.0", "p")]);
   ("g4", [(JStr "nan", "p")]); ("g5", [(JStr "0.0", "p")]);
   ("g6", [(JStr "1.0", "p")])].

Definition three_samples : Dict.dict (list string) :=
  [("sampleA", ["HP:0000001"]); ("sampleB", ["HP:0000002"; "HP:0000003"]);
   ("sampleC", ["HP:0000004"])].

Definition one_sample : Dict.dict (list string) := [("sampleA", ["HP:0000001"])].

(** 1001 gene symbols, that is two chunks. *)
Definition many_genes : list string := map str_nat (seq 0 1001).

(** A service that answers every request with the same body, under a clock
    that shows a date in 2023. *)
Definition steady (status : Z) (body : response) : env :=
  {| clock := fun _ => f_2023; net := fun _ _ _ => Answers status (Some body) |}.

(** A service whose second answer is an internal server error. *)
Definition failing_second : env :=
  {| clock := fun _ => f_2023;
     net := fun n _ _ =>
       match n with
       | 1 => Answers 500 None
       | _ => Answers 200 (Some brca1_response)
       end |}.


(** A clock that shows a quarter of a second, then half a second, after
    the epoch. *)
Definition early : env :=
  {| clock := fun n => match n with 0 => f0_25 | _ => f0_5 end;
     net := fun _ _ _ => Answers 200 (Some brca1_response) |}.

(** ** The command line (lines 44-79) *)

(** The four positional arguments, as [parser.parse_args()] returns them. *)
Record Namespace : Type := {
  hpo : string;
  hgnc : string;
  tsv : string;
  out : string
}.

(** What [isfile] and [isdir] answer. *)
Record disk : Type := {
  is_file : string -> bool;
  is_dir : string -> bool
}.

(** [parser.error(message)] ends the program; otherwise the arguments are
    returned. *)
Inductive cli : Type :=
| Accepted (args : Namespace)
| ParserError (message : string).

(** [s.endswith(suffix)] *)
Fixpoint endswith (s suffix : string) : bool :=
  String.eqb s suffix ||
  match s with
  | String _ s' => endswith s' suffix
  | EmptyString => false
  end.

Fixpoint has_slash (s : string) : bool :=
  match s with
  | String c s' => Ascii.eqb c "/" || has_slash s'
  | EmptyString => false
  end.

(** [s.split('/')[-1]]: what follows the last slash. *)
Fixpoint last_part (s : string) : string :=
  match s with
  | String c s' =>
      if Ascii.eqb c "/" then last_part s'
      else if has_slash s' then last_part s' else s
  | EmptyString => EmptyString
  end.

Definition quote : string := String "034"%char EmptyString.

(** ['"' + path.split('/')[-1] + '"' + reason] *)
Definition complaint (path reason : string) : string :=
  (quote ++ last_part path ++ quote ++ reason)%string.

(** The validation of the command line. *)
Definition parseCommandLine (d : disk) (args : Namespace) : cli :=
  if negb (endswith (hpo args) ".obo") then
    ParserError (complaint (hpo args) " is not an .obo file")
  else if negb (is_file d (hpo args)) then
    ParserError (complaint (hpo args) " is not an existing file")
  else if negb (endswith (hgnc args) ".txt") then
    ParserError (complaint (hgnc args) " is not a .txt file")
  else if negb (is_file d (hgnc args)) then
    ParserError (complaint (hgnc args) " is not an existing file")
  else if negb (endswith (tsv args) ".tsv") then
    ParserError (complaint (tsv args) " is not a .tsv file")
  else if negb (is_file d (tsv args)) then
    ParserError (complaint (tsv args) " is not an existing file")
  else if negb (is_dir d (out args)) then
    ParserError (complaint (out args) " is not a valid directory")
  else Accepted args.

(** ** More vocabulary: what a run requests, writes and waits for *)

Definition is_post (ev : event) : bool :=
  match ev with Post _ _ => true | _ => false end.


Definition is_sleep (ev : event) : bool :=
  match ev with Sleep _ => true | _ => false end.


(** The state once the file [path] holds [text]. *)
Definition wrote (path text : string) (w : state) : state :=
  {| files := Dict.set path text (files w); requestTime := requestTime w;
     ticks := ticks w; posts := posts w |}.

Definition processing_line (lovd : string) : event :=
  Print ("# processing: " ++ lovd)%string.

Definition skipping_line (lovd : string) : event :=
  Print ("# skipping: " ++ lovd)%string.

(** The text of the file of a SampleResult whose genes are sorted. *)
Definition file_text (d : SampleResult) (genes : list string) : string :=
  (header ++ String.concat "" (map (gene_line d) genes))%string.



(** The replies to the requests for the chunks of one LOVD, the first of
    them being the [n]-th request of the run. *)
Fixpoint replies (E : env) (phenotypes : string) (n : nat) (chunks : list (list string))
    : list reply :=
  match chunks with
  | [] => []
  | c :: chunks' =>
      net E n (join "," c) phenotypes :: replies E phenotypes (S n) chunks'
  end.

(** The body of a reply that passes the [try] block and decodes. *)
Definition accepted (r : reply) : option response :=
  match r with
  | Answers status (Some body) =>
      match raise_for_status status with Ok _ => Some body | Raise _ => None end
  | _ => None
  end.

(** The genes in the order in which they first come with a score. *)
Definition see (ks : list string) (entry : gene_entry) : list string :=
  if filled entry && negb (existsb (String.eqb (fst entry)) ks)
  then ks ++ [fst entry] else ks.

Definition first_seen (ks : list string) (entries : response) : list string :=
  fold_left see entries ks.

(** What the rate limiter does before the [j]-th request of a run that
    read the clock for the [n]-th time when it started: the first check
    compares with the negated first reading, the later ones with the
    reading made after the previous answer. *)
Definition gate (E : env) (n j : nat) : list event :=
  let last :=
    match j with
    | O => PyFloat.opp (clock E n)
    | S _ => clock E (n + 2 * j)
    end in
  let elapsed := PyFloat.sub (clock E (n + 1 + 2 * j)) last in
  if PyFloat.geb elapsed PyFloat.one then []
  else [Sleep (PyFloat.sub PyFloat.one elapsed)].

(** The waits of a trace are those of the rate limiter before each of its
    requests, the first of which is the [j]-th of the run. *)
Definition paced_trace (E : env) (n j : nat) (tr : list event) : Prop :=
  filter is_sleep tr
  = List.concat (map (gate E n) (seq j (List.length (filter is_post tr)))).

(** The state of a run that has had [j] answers. *)
Definition paced (E : env) (n j : nat) (w : state) : Prop :=
  ticks w = (n + 1 + 2 * j)%nat /\
  requestTime w = match j with
                  | O => PyFloat.opp (clock E n)
                  | S _ => clock E (n + 2 * j)
                  end.

(** Disks and command lines to try the validation on. *)
Definition benchmark_disk : disk :=
  {| is_file := fun p =>
       String.eqb p "data/hp.obo" || String.eqb p "data/hgnc_complete_set.txt"
       || String.eqb p "data/benchmark_data.tsv";
     is_dir := fun p => String.eqb p "output/" |}.

Definition benchmark_args : Namespace :=
  {| hpo := "data/hp.obo"; hgnc := "data/hgnc_complete_set.txt";
     tsv := "data/benchmark_data.tsv"; out := "output/" |}.

Definition wrong_hgnc_args : Namespace :=
  {| hpo := "data/hp.obo"; hgnc := "data/genes.csv";
     tsv := "data/benchmark_data.tsv"; out := "output/" |}.

(** ** More vocabulary: what a run prints *)



(** * Properties *)

(** ** Comparison of floats *)

Module PyFloatFacts.
Import PyFloat.

Ltac by_cases_on_compare :=
  repeat match goal with
  | H : context [Z.compare ?a ?b] |- _ => destruct (Z.compare_spec a b)
  | |- context [Z.compare ?a ?b] => destruct (Z.compare_spec a b)
  | H : context [Pos.compare_cont Eq ?a ?b] |- _ =>
      change (Pos.compare_cont Eq a b) with (Pos.compare a b) in H;
      destruct (Pos.compare_spec a b)
  | |- context [Pos.compare_cont Eq ?a ?b] =>
      change (Pos.compare_cont Eq a b) with (Pos.compare a b);
      destruct (Pos.compare_spec a b)
  end; simpl in *; try discriminate; try reflexivity; try lia.

Lemma leb_trans (x y z : float) :
  leb x y = true -> leb y z = true -> leb x z = true.
Proof.
  unfold leb, SFleb.
  destruct x as [sx|sx| |sx mx ex], y as [sy|sy| |sy my ey], z as [sz|sz| |sz mz ez];
    simpl; try discriminate; try reflexivity;
    try (destruct sx); try (destruct sy); try (destruct sz);
    simpl; try discriminate; try reflexivity; intros H1 H2;
    by_cases_on_compare.
Qed.

(** Without NaN two floats always compare. *)
Lemma ltb_false_geb (x y : float) :
  is_nan x = false -> is_nan y = false -> ltb x y = false -> geb x y = true.
Proof.
  unfold geb, leb, ltb, SFleb, SFltb.
  destruct x as [sx|sx| |sx mx ex], y as [sy|sy| |sy my ey];
    simpl; try discriminate; try reflexivity;
    try (destruct sx); try (destruct sy);
    simpl; try discriminate; try reflexivity; intros _ _ H;
    by_cases_on_compare.
Qed.

Lemma geb_ltb_false (x y : float) : geb x y = true -> ltb x y = false.
Proof.
  unfold geb, leb, ltb, SFleb, SFltb.
  destruct x as [sx|sx| |sx mx ex], y as [sy|sy| |sy my ey];
    simpl; try discriminate; try reflexivity;
    try (destruct sx); try (destruct sy);
    simpl; try discriminate; try reflexivity; intros H;
    by_cases_on_compare.
Qed.

Lemma ltb_asym (x y : float) : ltb x y = true -> ltb y x = false.
Proof.
  unfold ltb, SFltb.
  destruct x as [sx|sx| |sx mx ex], y as [sy|sy| |sy my ey];
    simpl; try discriminate; try reflexivity;
    try (destruct sx); try (destruct sy);
    simpl; try discriminate; try reflexivity; intros H;
    by_cases_on_compare.
Qed.

Lemma ltb_negtrans (x y z : float) :
  is_nan x = false -> is_nan y = false -> is_nan z = false ->
  ltb x y = false -> ltb y z = false -> ltb x z = false.
Proof.
  intros Hx Hy Hz H1 H2.
  apply geb_ltb_false. unfold geb.
  apply leb_trans with y; [apply (ltb_false_geb y z) | apply (ltb_false_geb x y)];
    assumption.
Qed.

Lemma eqb_ltb_false (x y : float) : eqb x y = true -> ltb x y = false.
Proof.
  unfold eqb, ltb, SFeqb, SFltb. destruct (SFcompare x y) as [[]|]; easy.
Qed.

Lemma eqb_sym (x y : float) : eqb x y = true -> eqb y x = true.
Proof.
  unfold eqb, SFeqb.
  destruct x as [sx|sx| |sx mx ex], y as [sy|sy| |sy my ey];
    simpl; try discriminate; try reflexivity;
    try (destruct sx); try (destruct sy);
    simpl; try discriminate; try reflexivity; intros H;
    by_cases_on_compare.
Qed.

Lemma geb_not_nan (x y : float) :
  geb x y = true -> is_nan x = false /\ is_nan y = false.
Proof.
  unfold geb, leb, SFleb. destruct x, y; simpl; try discriminate; auto.
Qed.


End PyFloatFacts.

(** ** The sort *)

Module ListSortFacts.
Import ListSort.

Section Before.
Context {B : Type}.

Lemma before_rev (x y : B) (l : list B) : before x y l -> before y x (rev l).
Proof.
  intros (l1 & l2 & l3 & ->).
  exists (rev l3), (rev l2), (rev l1).
  rewrite rev_app_distr. simpl. rewrite rev_app_distr. simpl.
  repeat rewrite <- app_assoc. reflexivity.
Qed.

Lemma before_cons (x y z : B) (l : list B) : before x y l -> before x y (z :: l).
Proof.
  intros (l1 & l2 & l3 & ->). exists (z :: l1), l2, l3. reflexivity.
Qed.

Lemma before_head (x y : B) (l : list B) : In y l -> before x y (x :: l).
Proof.
  intros H. destruct (in_split _ _ H) as (l2 & l3 & ->).
  exists [], l2, l3. reflexivity.
Qed.

Lemma before_inv (x y z : B) (l : list B) :
  before x y (z :: l) -> (x = z /\ In y l) \/ before x y l.
Proof.
  intros (l1 & l2 & l3 & H). destruct l1 as [|z' l1]; simpl in H.
  - injection H as -> ->. left. split; [reflexivity|].
    apply in_or_app. right. left. reflexivity.
  - injection H as -> ->. right. exists l1, l2, l3. reflexivity.
Qed.

Lemma before_sorted (R : B -> B -> Prop) (x y : B) (l : list B) :
  StronglySorted R l -> before x y l -> R x y.
Proof.
  intros Hs. induction Hs as [|z l Hs IH Hall]; intros Hb.
  - destruct Hb as (l1 & l2 & l3 & H). destruct l1; discriminate.
  - destruct (before_inv _ _ _ _ Hb) as [[-> Hin]|Hb'].
    + rewrite Forall_forall in Hall. apply Hall, Hin.
    + apply IH, Hb'.
Qed.
End Before.

Lemma before_map {B C : Type} (f : B -> C) (x y : B) (l : list B) :
  before x y l -> before (f x) (f y) (map f l).
Proof.
  intros (l1 & l2 & l3 & ->).
  exists (map f l1), (map f l2), (map f l3).
  rewrite map_app. simpl. rewrite map_app. reflexivity.
Qed.

(** *** What holds whatever the comparison does *)

Section Any.
Context {A : Type}.
Variable lt : A -> A -> bool.

Lemma bisect_app (fuel : nat) (pivot : A) (lo mid hi : list A) :
  fst (bisect lt fuel pivot lo mid hi) ++ snd (bisect lt fuel pivot lo mid hi)
  = lo ++ mid ++ hi.
Proof.
  revert lo mid hi. induction fuel as [|fuel IH]; intros lo mid hi.
  - destruct mid; simpl; rewrite <- app_assoc; reflexivity.
  - destruct mid as [|m0 mid']; [simpl; rewrite app_nil_r; reflexivity|].
    cbn [bisect]. remember (m0 :: mid') as mid eqn:Hmid.
    pose proof (firstn_skipn (List.length mid / 2) mid) as Hsplit.
    destruct (skipn (List.length mid / 2) mid) as [|x after] eqn:Hskip.
    + simpl. rewrite <- app_assoc. reflexivity.
    + set (f := firstn _ mid) in *.
      destruct (lt pivot x); rewrite IH, <- Hsplit, <- ?app_assoc; reflexivity.
Qed.

Lemma binary_insert_perm (a : list A) (pivot : A) :
  Permutation (binary_insert lt a pivot) (pivot :: a).
Proof.
  unfold binary_insert.
  pose proof (bisect_app (List.length a) pivot [] a []) as H.
  destruct (bisect lt (List.length a) pivot [] a []) as [b c]. simpl in H.
  rewrite app_nil_r in H. subst a.
  symmetry. apply Permutation_middle.
Qed.

Lemma binarysort_perm (rest run : list A) :
  Permutation (binarysort lt run rest) (run ++ rest).
Proof.
  unfold binarysort. revert run.
  induction rest as [|x rest IH]; intros run; simpl.
  - rewrite app_nil_r. reflexivity.
  - rewrite IH. rewrite binary_insert_perm.
    rewrite <- Permutation_middle. reflexivity.
Qed.

Lemma run_asc_app (l : list A) (prev : A) :
  l = fst (run_asc lt prev l) ++ snd (run_asc lt prev l).
Proof.
  revert prev. induction l as [|x l IH]; intros prev; simpl; [reflexivity|].
  destruct (lt x prev); [reflexivity|].
  specialize (IH x). destruct (run_asc lt x l) as [r rest]. simpl in *.
  congruence.
Qed.

Lemma run_desc_app (l : list A) (prev : A) :
  l = fst (run_desc lt prev l) ++ snd (run_desc lt prev l).
Proof.
  revert prev. induction l as [|x l IH]; intros prev; simpl; [reflexivity|].
  destruct (lt x prev); [|reflexivity].
  specialize (IH x). destruct (run_desc lt x l) as [r rest]. simpl in *.
  congruence.
Qed.

Lemma count_run_perm (l : list A) :
  Permutation (fst (count_run lt l) ++ snd (count_run lt l)) l.
Proof.
  destruct l as [|x [|y l]]; [reflexivity|reflexivity|]. cbn [count_run].
  destruct (lt y x).
  - pose proof (run_desc_app l y) as H.
    destruct (run_desc lt y l) as [r rest]. cbn [fst snd] in *. subst l.
    change (x :: y :: r ++ rest) with ((x :: y :: r) ++ rest).
    apply Permutation_app_tail.
    symmetry. apply (Permutation_rev (x :: y :: r)).
  - pose proof (run_asc_app l y) as H.
    destruct (run_asc lt y l) as [r rest]. cbn [fst snd] in *. subst l.
    reflexivity.
Qed.

Lemma listsort_perm (l : list A) : Permutation (listsort lt l) l.
Proof.
  unfold listsort. pose proof (count_run_perm l) as H.
  destruct (count_run lt l) as [run rest]. simpl in H.
  rewrite binarysort_perm. exact H.
Qed.

Lemma sort_perm (reverse : bool) (l : list A) : Permutation (sort lt reverse l) l.
Proof.
  unfold sort. destruct reverse; [|apply listsort_perm].
  rewrite <- Permutation_rev, listsort_perm, <- Permutation_rev. reflexivity.
Qed.

Lemma linsert_perm (x : A) (s : list A) : Permutation (linsert lt x s) (x :: s).
Proof.
  induction s as [|y s IH]; simpl; [reflexivity|].
  destruct (lt y x); [|reflexivity].
  rewrite IH. apply perm_swap.
Qed.

Lemma isort_perm (l : list A) : Permutation (isort lt l) l.
Proof.
  induction l as [|x l IH]; simpl; [reflexivity|].
  rewrite linsert_perm. apply perm_skip, IH.
Qed.

Lemma linsert_before (x a b : A) (s : list A) :
  before a b s -> before a b (linsert lt x s).
Proof.
  revert a b. induction s as [|y s IH]; intros a b Hb; simpl.
  - destruct Hb as (l1 & l2 & l3 & H). destruct l1; discriminate.
  - destruct (lt y x); [|apply before_cons, Hb].
    destruct (before_inv _ _ _ _ Hb) as [[-> Hin]|Hb'].
    + apply before_head. apply (Permutation_in _ (Permutation_sym (linsert_perm x s))).
      right. exact Hin.
    + apply before_cons, IH, Hb'.
Qed.

Lemma linsert_first (x b : A) (s : list A) :
  In b s -> lt b x = false -> before x b (linsert lt x s).
Proof.
  induction s as [|y s IH]; intros Hin Hlt; simpl; [destruct Hin|].
  destruct (lt y x) eqn:Hyx.
  - destruct Hin as [->|Hin]; [congruence|].
    apply before_cons, IH; assumption.
  - apply before_head, Hin.
Qed.

(** The straight insertion sort keeps two items in their order unless the
    second is below the first. *)
Lemma isort_stable (a b : A) (l : list A) :
  before a b l -> lt b a = false -> before a b (isort lt l).
Proof.
  induction l as [|x l IH]; intros Hb Hlt.
  - destruct Hb as (l1 & l2 & l3 & H). destruct l1; discriminate.
  - simpl. destruct (before_inv _ _ _ _ Hb) as [[-> Hin]|Hb'].
    + apply linsert_first; [|exact Hlt].
      apply (Permutation_in _ (Permutation_sym (isort_perm l))), Hin.
    + apply linsert_before, IH; assumption.
Qed.

Lemma linsert_all_below (x : A) (s : list A) :
  Forall (fun y => lt y x = true) s -> linsert lt x s = s ++ [x].
Proof.
  induction 1 as [|y s Hy _ IH]; simpl; [reflexivity|].
  rewrite Hy, IH. reflexivity.
Qed.

Lemma run_asc_isort (l : list A) (prev : A) :
  isort lt (prev :: fst (run_asc lt prev l)) = prev :: fst (run_asc lt prev l).
Proof.
  revert prev. induction l as [|x l IH]; intros prev; [reflexivity|].
  cbn [run_asc]. destruct (lt x prev) eqn:Hx; [reflexivity|].
  specialize (IH x). destruct (run_asc lt x l) as [r rest].
  cbn [fst] in *. change (isort lt (prev :: x :: r))
    with (linsert lt prev (isort lt (x :: r))).
  rewrite IH. simpl. rewrite Hx. reflexivity.
Qed.

Lemma rinsert_split (b a : list A) (x : A) :
  Forall (fun y => lt x y = false) b -> Forall (fun y => lt x y = true) a ->
  rinsert lt (b ++ a) x = b ++ x :: a.
Proof.
  intros Hb Ha. induction Hb as [|y b Hy _ IH]; simpl.
  - destruct Ha as [|y a Hy _]; simpl; [reflexivity|]. rewrite Hy. reflexivity.
  - rewrite Hy, IH. reflexivity.
Qed.
End Any.

(** *** What holds when the comparison orders the items: on the items that
    satisfy [P] it is asymmetric, and being not below is transitive *)

Section Ordered.
Context {A : Type}.
Variable lt : A -> A -> bool.
Variable P : A -> Prop.
Hypothesis asym : forall x y, P x -> P y -> lt x y = true -> lt y x = false.
Hypothesis negtrans : forall x y z, P x -> P y -> P z ->
  lt x y = false -> lt y z = false -> lt x z = false.

Lemma lt_trans (x y z : A) :
  P x -> P y -> P z -> lt x y = true -> lt y z = true -> lt x z = true.
Proof.
  intros Px Py Pz Hxy Hyz.
  destruct (lt x z) eqn:Hxz; [reflexivity|].
  pose proof (asym _ _ Px Py Hxy) as Hyx.
  pose proof (negtrans _ _ _ Py Px Pz Hyx Hxz). congruence.
Qed.

Lemma linsert_P (x : A) (s : list A) : P x -> Forall P s -> Forall P (linsert lt x s).
Proof.
  intros Px Hs. apply Forall_forall. intros y Hy.
  apply (Permutation_in _ (linsert_perm lt x s)) in Hy.
  destruct Hy as [<-|Hy]; [exact Px|].
  rewrite Forall_forall in Hs. apply Hs, Hy.
Qed.

Lemma isort_P (l : list A) : Forall P l -> Forall P (isort lt l).
Proof.
  intros Hl. apply Forall_forall. intros y Hy.
  apply (Permutation_in _ (isort_perm lt l)) in Hy.
  rewrite Forall_forall in Hl. apply Hl, Hy.
Qed.

Lemma linsert_ascending (x : A) (s : list A) :
  P x -> Forall P s -> ascending lt s -> ascending lt (linsert lt x s).
Proof.
  intros Px HP Hs. induction Hs as [|y s Hs IH Hall]; simpl.
  - constructor; constructor.
  - inversion HP as [|? ? Py HP']; subst.
    destruct (lt y x) eqn:Hyx.
    + constructor; [apply IH, HP'|].
      apply Forall_forall. intros z Hz.
      apply (Permutation_in _ (linsert_perm lt x s)) in Hz.
      destruct Hz as [<-|Hz].
      * apply asym; assumption.
      * rewrite Forall_forall in Hall. apply Hall, Hz.
    + constructor; [constructor; assumption|].
      constructor; [exact Hyx|].
      rewrite Forall_forall in Hall, HP'. apply Forall_forall. intros z Hz.
      apply negtrans with y; auto.
Qed.

Lemma isort_ascending (l : list A) : Forall P l -> ascending lt (isort lt l).
Proof.
  induction 1 as [|x l Px Hl IH]; simpl; [constructor|].
  apply linsert_ascending; [exact Px|apply isort_P; exact Hl|exact IH].
Qed.

Lemma ascending_app (s1 s2 : list A) :
  ascending lt (s1 ++ s2) ->
  ascending lt s1 /\ ascending lt s2 /\
  forall x y, In x s1 -> In y s2 -> lt y x = false.
Proof.
  induction s1 as [|z s1 IH]; simpl; intros H.
  - repeat split; [constructor|exact H|intros x y []].
  - inversion H as [|? ? Hs Hall]; subst.
    destruct (IH Hs) as (H1 & H2 & H3).
    rewrite Forall_forall in Hall.
    repeat split; [constructor|exact H2|].
    + exact H1.
    + apply Forall_forall. intros y Hy. apply Hall, in_or_app. left. exact Hy.
    + intros x y [<-|Hx] Hy; [apply Hall, in_or_app; right; exact Hy|].
      apply H3; assumption.
Qed.

(** On an ascending slice the binary search splits at the first item above
    the pivot. *)
Lemma bisect_ok (fuel : nat) (pivot : A) (lo mid hi : list A) :
  (List.length mid <= fuel)%nat -> P pivot -> Forall P mid -> ascending lt mid ->
  Forall (fun y => lt pivot y = false) lo ->
  Forall (fun y => lt pivot y = true) hi ->
  Forall (fun y => lt pivot y = false) (fst (bisect lt fuel pivot lo mid hi)) /\
  Forall (fun y => lt pivot y = true) (snd (bisect lt fuel pivot lo mid hi)).
Proof.
  revert lo mid hi. induction fuel as [|fuel IH]; intros lo mid hi Hlen Pp HP Hasc Hlo Hhi.
  - destruct mid; [|simpl in Hlen; lia]. simpl. rewrite app_nil_r. auto.
  - destruct mid as [|m0 mid']; [simpl; rewrite app_nil_r; auto|].
    cbn [bisect]. remember (m0 :: mid') as mid eqn:Hmid.
    assert (Hpos : (0 < List.length mid)%nat) by (subst mid; simpl; lia).
    pose proof (firstn_skipn (List.length mid / 2) mid) as Hsplit.
    assert (Hhalf : (List.length mid / 2 < List.length mid)%nat)
      by (apply Nat.div_lt; lia).
    pose proof (firstn_length_le mid (Nat.lt_le_incl _ _ Hhalf)) as Hfl.
    pose proof (length_skipn (List.length mid / 2) mid) as Hsl.
    destruct (skipn (List.length mid / 2) mid) as [|x after] eqn:Hskip;
      [cbn [List.length] in Hsl; lia|].
    rewrite <- Hsplit in HP, Hasc.
    apply Forall_app in HP. destruct HP as [HP1 HP2].
    inversion HP2 as [|? ? Px HP3]; subst x0 l.
    destruct (ascending_app _ _ Hasc) as (Ha1 & Ha2 & Ha3).
    inversion Ha2 as [|? ? Ha4 Ha5]; subst a l.
    rewrite Forall_forall in HP1, HP3, Ha5.
    cbn [List.length] in Hsl.
    destruct (lt pivot x) eqn:Hpx.
    + apply IH; auto.
      * rewrite Hfl. lia.
      * apply Forall_forall. exact HP1.
      * constructor; [exact Hpx|]. apply Forall_app. split; [|exact Hhi].
        apply Forall_forall. intros y Hy.
        destruct (lt pivot y) eqn:Hpy; [reflexivity|].
        pose proof (negtrans pivot y x Pp (HP3 y Hy) Px Hpy (Ha5 y Hy)). congruence.
    + apply IH; auto.
      * lia.
      * apply Forall_forall. exact HP3.
      * apply Forall_app. split; [exact Hlo|]. apply Forall_app. split.
        -- apply Forall_forall. intros y Hy.
           apply negtrans with x; auto.
           apply Ha3; [exact Hy|left; reflexivity].
        -- constructor; [exact Hpx|constructor].
Qed.

Lemma binary_insert_rinsert (s : list A) (x : A) :
  P x -> Forall P s -> ascending lt s -> binary_insert lt s x = rinsert lt s x.
Proof.
  intros Px HP Hs. unfold binary_insert.
  pose proof (bisect_app lt (List.length s) x [] s []) as Happ.
  pose proof (bisect_ok (List.length s) x [] s [] (le_n _) Px HP Hs
                (Forall_nil _) (Forall_nil _)) as [Hb Ha].
  destruct (bisect lt (List.length s) x [] s []) as [b a]. simpl in *.
  rewrite app_nil_r in Happ. subst s.
  symmetry. apply rinsert_split; assumption.
Qed.

Lemma linsert_rinsert (x y : A) (s : list A) :
  P x -> P y -> Forall P s ->
  rinsert lt (linsert lt x s) y = linsert lt x (rinsert lt s y).
Proof.
  intros Px Py HP. induction HP as [|z s Pz HP IH]; [reflexivity|].
  cbn [rinsert linsert].
  destruct (lt z x) eqn:Hzx; destruct (lt y z) eqn:Hyz.
  - pose proof (lt_trans y z x Py Pz Px Hyz Hzx) as Hyx.
    cbn [rinsert linsert]. rewrite Hyz, Hyx. cbn [linsert]. rewrite Hzx.
    reflexivity.
  - cbn [rinsert linsert]. rewrite Hyz, Hzx, IH. reflexivity.
  - cbn [rinsert linsert]. destruct (lt y x) eqn:Hyx.
    + cbn [linsert]. rewrite Hzx. reflexivity.
    + cbn [rinsert]. rewrite Hyz. reflexivity.
  - pose proof (negtrans y z x Py Pz Px Hyz Hzx) as Hyx.
    cbn [rinsert linsert]. rewrite Hyx, Hzx. cbn [rinsert]. rewrite Hyz.
    reflexivity.
Qed.

Lemma rinsert_isort (l : list A) (y : A) :
  P y -> Forall P l -> rinsert lt (isort lt l) y = isort lt (l ++ [y]).
Proof.
  intros Py HP. induction HP as [|x l Px HP IH]; simpl; [reflexivity|].
  rewrite linsert_rinsert; [|assumption|assumption|apply isort_P; exact HP].
  rewrite IH. reflexivity.
Qed.

Lemma binarysort_isort (rest l : list A) :
  Forall P l -> Forall P rest ->
  binarysort lt (isort lt l) rest = isort lt (l ++ rest).
Proof.
  unfold binarysort. revert l.
  induction rest as [|y rest IH]; intros l Hl Hrest; simpl.
  - rewrite app_nil_r. reflexivity.
  - inversion Hrest as [|? ? Py Hrest']; subst.
    rewrite binary_insert_rinsert;
      [|exact Py|apply isort_P; exact Hl|apply isort_ascending; exact Hl].
    rewrite rinsert_isort by assumption.
    rewrite IH; [|apply Forall_app; split; [exact Hl|constructor; [exact Py|constructor]]
                 |exact Hrest'].
    rewrite <- app_assoc. reflexivity.
Qed.

Lemma run_desc_isort (l : list A) (prev : A) :
  P prev -> Forall P l ->
  Forall (fun y => lt y prev = true) (fst (run_desc lt prev l)) /\
  isort lt (fst (run_desc lt prev l)) = rev (fst (run_desc lt prev l)).
Proof.
  revert prev. induction l as [|x l IH]; intros prev Pp HP; [split; [constructor|reflexivity]|].
  inversion HP as [|? ? Px HP']; subst.
  cbn [run_desc]. destruct (lt x prev) eqn:Hx; [|split; [constructor|reflexivity]].
  destruct (IH x Px HP') as [Hall Hsort].
  pose proof (run_desc_app lt l x) as Happ.
  destruct (run_desc lt x l) as [r rest]. cbn [fst snd] in *.
  assert (HPr : Forall P r).
  { rewrite Happ in HP'. apply Forall_app in HP'. apply HP'. }
  split.
  - constructor; [exact Hx|].
    rewrite Forall_forall in Hall, HPr. apply Forall_forall. intros y Hy.
    apply lt_trans with x; auto.
  - cbn [isort fold_right]. fold (isort lt r). rewrite Hsort.
    rewrite linsert_all_below; [reflexivity|].
    apply Forall_rev. exact Hall.
Qed.

(** On items that the comparison orders, the sort of CPython is the stable
    sort by straight insertion. *)
Lemma listsort_isort (l : list A) : Forall P l -> listsort lt l = isort lt l.
Proof.
  intros HP. unfold listsort.
  destruct l as [|x [|y l]]; [reflexivity|reflexivity|].
  inversion HP as [|? ? Px HP1]; subst. inversion HP1 as [|? ? Py HP2]; subst.
  cbn [count_run]. destruct (lt y x) eqn:Hyx.
  - destruct (run_desc_isort l y Py HP2) as [Hall Hsort].
    pose proof (run_desc_app lt l y) as Happ.
    destruct (run_desc lt y l) as [r rest]. cbn [fst snd] in *.
    assert (HPr : Forall P r /\ Forall P rest).
    { rewrite Happ in HP2. apply Forall_app in HP2. exact HP2. }
    destruct HPr as [HPr HPrest].
    assert (Hrun : rev (x :: y :: r) = isort lt (x :: y :: r)).
    { cbn [isort fold_right]. fold (isort lt r). rewrite Hsort.
      rewrite (linsert_all_below lt y) by (apply Forall_rev; exact Hall).
      rewrite linsert_all_below.
      - simpl. rewrite <- app_assoc. reflexivity.
      - apply Forall_app. split; [|constructor; [exact Hyx|constructor]].
        apply Forall_rev. rewrite Forall_forall in Hall, HPr.
        apply Forall_forall. intros z Hz. apply lt_trans with y; auto. }
    rewrite Hrun. rewrite binarysort_isort; [|repeat constructor; assumption|exact HPrest].
    rewrite Happ. reflexivity.
  - pose proof (run_asc_isort lt l y) as Hsort.
    pose proof (run_asc_app lt l y) as Happ.
    destruct (run_asc lt y l) as [r rest]. cbn [fst snd] in *.
    assert (HPr : Forall P r /\ Forall P rest).
    { rewrite Happ in HP2. apply Forall_app in HP2. exact HP2. }
    destruct HPr as [HPr HPrest].
    assert (Hrun : x :: y :: r = isort lt (x :: y :: r)).
    { change (isort lt (x :: y :: r)) with (linsert lt x (isort lt (y :: r))).
      rewrite Hsort. simpl. rewrite Hyx. reflexivity. }
    rewrite Hrun. rewrite binarysort_isort; [|repeat constructor; assumption|exact HPrest].
    rewrite Happ. reflexivity.
Qed.
End Ordered.

End ListSortFacts.

(** ** The result writer *)

Module StringFacts.

Lemma append_assoc (a b c : string) : ((a ++ b) ++ c = a ++ (b ++ c))%string.
Proof. induction a as [|ch a IH]; simpl; [reflexivity|]. rewrite IH. reflexivity. Qed.

Lemma append_nil_r (a : string) : (a ++ "" = a)%string.
Proof. induction a as [|ch a IH]; simpl; [reflexivity|]. rewrite IH. reflexivity. Qed.

End StringFacts.

Module WriterFacts.
Import ListSort ListSortFacts StringFacts.

Lemma before_map_inv {B C : Type} (f : B -> C) (x y : C) (l : list B) :
  before x y (map f l) ->
  exists a b, f a = x /\ f b = y /\ before a b l.
Proof.
  intros (l1 & l2 & l3 & H).
  apply map_eq_app in H. destruct H as (m1 & m2 & -> & <- & H).
  destruct m2 as [|a m2]; [discriminate|]. simpl in H.
  injection H as <- H.
  apply map_eq_app in H. destruct H as (m3 & m4 & -> & <- & H).
  destruct m4 as [|b m4]; [discriminate|]. simpl in H.
  injection H as <- <-.
  exists a, b. repeat split. exists m1, m3, m4. reflexivity.
Qed.

Lemma write_scores_spec (l : list (string * PyFloat.float)) (i : nat) (text : string) :
  write_scores i l text
  = (text ++ match l with
             | [] => ""
             | _ :: _ => (if (0 <? i)%nat then "," else "") ++ join "," (map entry_text l)
             end)%string.
Proof.
  revert i text. induction l as [|e l IH]; intros i text.
  - simpl. rewrite append_nil_r. reflexivity.
  - cbn [write_scores]. rewrite IH. fold (entry_text e).
    destruct l as [|e' l].
    + destruct (0 <? i)%nat; simpl; rewrite ?append_nil_r, ?append_assoc; reflexivity.
    + change (0 <? S i)%nat with true. cbn [map join String.concat].
      destruct (0 <? i)%nat; rewrite ?append_assoc; reflexivity.
Qed.

Lemma get_of_key {V : Type} (d : Dict.dict V) (k : string) :
  In k (Dict.keys d) -> exists v, Dict.get k d = Some v /\ In (k, v) d.
Proof.
  induction d as [|[k' v'] d IH]; simpl; [intros []|]. intros H.
  destruct (String.eqb_spec k' k) as [->|Hne].
  - exists v'. split; [reflexivity|left; reflexivity].
  - destruct H as [H|H]; [contradiction|].
    destruct (IH H) as (v & Hv & Hin). exists v. split; [exact Hv|right; exact Hin].
Qed.

Lemma get_in {V : Type} (d : Dict.dict V) (k : string) (v : V) :
  Dict.get k d = Some v -> In (k, v) d.
Proof.
  induction d as [|[k' v'] d IH]; simpl; [discriminate|].
  destruct (String.eqb_spec k' k) as [->|Hne].
  - intros H. injection H as ->. left. reflexivity.
  - intros H. right. apply IH, H.
Qed.

Lemma concat_cons (a : string) (l : list string) :
  String.concat "" (a :: l) = (a ++ String.concat "" l)%string.
Proof. destruct l; simpl; [rewrite append_nil_r|]; reflexivity. Qed.

Lemma write_genes_spec (d : SampleResult) (genes : list string) (text : string) :
  (forall g, In g genes -> In g (Dict.keys d)) ->
  write_genes d genes text
  = ((text ++ String.concat "" (map (gene_line d) genes))%string, None).
Proof.
  revert text. induction genes as [|g genes IH]; intros text Hin.
  - simpl. rewrite append_nil_r. reflexivity.
  - cbn [write_genes map].
    destruct (get_of_key d g (Hin g (or_introl eq_refl))) as (l & Hl & _).
    rewrite Hl. rewrite IH by (intros g' Hg'; apply Hin; right; exact Hg').
    rewrite write_scores_spec, concat_cons. f_equal.
    unfold gene_line at 2. rewrite Hl.
    replace (match l with
             | [] => ""
             | _ :: _ => (if (0 <? 0)%nat then "," else "") ++ join "," (map entry_text l)
             end)%string with (join "," (map entry_text l))
      by (destruct l; reflexivity).
    rewrite !append_assoc. reflexivity.
Qed.

(** The keys of the sort, when every gene has a first score. *)
Lemma first_score_populated (d : SampleResult) (k : string) :
  populated d = true -> In k (Dict.keys d) ->
  first_score d k = Ok (score_of d k).
Proof.
  intros Hp Hk. unfold score_of, first_score.
  destruct (get_of_key d k Hk) as (l & -> & Hin).
  unfold populated in Hp. rewrite forallb_forall in Hp.
  specialize (Hp _ Hin). simpl in Hp. destruct l; [discriminate|reflexivity].
Qed.

Lemma with_keys_populated (d : SampleResult) (ks : list string) :
  populated d = true -> (forall k, In k ks -> In k (Dict.keys d)) ->
  with_keys d ks = Ok (map (fun k => (score_of d k, k)) ks).
Proof.
  intros Hp. induction ks as [|k ks IH]; intros Hin; [reflexivity|].
  cbn [with_keys map].
  rewrite (first_score_populated d k Hp) by (apply Hin; left; reflexivity).
  rewrite IH by (intros k' Hk'; apply Hin; right; exact Hk'). reflexivity.
Qed.

Lemma comparable_populated (d : SampleResult) : comparable d = true -> populated d = true.
Proof.
  unfold comparable, populated. rewrite !forallb_forall.
  intros H kv Hin. specialize (H kv Hin). unfold first_is_number in H.
  destruct (snd kv); [discriminate|reflexivity].
Qed.

Lemma score_of_number (d : SampleResult) (k : string) :
  comparable d = true -> In k (Dict.keys d) -> PyFloat.is_nan (score_of d k) = false.
Proof.
  intros Hc Hk. unfold score_of, first_score.
  destruct (get_of_key d k Hk) as (l & -> & Hin).
  unfold comparable in Hc. rewrite forallb_forall in Hc.
  specialize (Hc _ Hin). unfold first_is_number in Hc. simpl in Hc.
  destruct l as [|e l]; [discriminate|]. destruct (PyFloat.is_nan (snd e)); easy.
Qed.

(** What the writer does with a populated SampleResult. *)
Lemma sorted_list_populated (d : SampleResult) :
  populated d = true ->
  let keyed := map (fun k => (score_of d k, k)) (Dict.keys d) in
  retrieveSortedAmelieList d = Ok (sorted keyed true) /\
  Permutation (sorted keyed true) (Dict.keys d) /\
  lovd_file d
  = ((header ++ String.concat "" (map (gene_line d) (sorted keyed true)))%string, None).
Proof.
  intros Hp keyed.
  assert (Hs : retrieveSortedAmelieList d = Ok (sorted keyed true)).
  { unfold retrieveSortedAmelieList.
    rewrite (with_keys_populated d (Dict.keys d) Hp) by auto. reflexivity. }
  assert (Hperm : Permutation (sorted keyed true) (Dict.keys d)).
  { unfold sorted. rewrite (sort_perm by_key true keyed). unfold keyed.
    rewrite map_map. simpl. rewrite map_id. reflexivity. }
  repeat split; [exact Hs|exact Hperm|].
  unfold lovd_file. rewrite Hs. apply write_genes_spec.
  intros g Hg. apply (Permutation_in _ Hperm), Hg.
Qed.

(** Without NaN among the keys, [sorted] is the stable sort by insertion,
    reversed. *)
Lemma sorted_comparable (d : SampleResult) :
  comparable d = true ->
  let keyed := map (fun k => (score_of d k, k)) (Dict.keys d) in
  sorted keyed true = map snd (rev (isort by_key (rev keyed))).
Proof.
  intros Hc keyed. unfold sorted, sort. do 2 f_equal.
  apply (listsort_isort by_key (fun a => PyFloat.is_nan (fst a) = false)).
  - intros x y _ _. apply PyFloatFacts.ltb_asym.
  - intros x y z Hx Hy Hz. apply PyFloatFacts.ltb_negtrans; assumption.
  - apply Forall_rev. apply Forall_forall. intros a Ha.
    apply in_map_iff in Ha. destruct Ha as (k & <- & Hk). simpl.
    apply score_of_number; assumption.
Qed.

Lemma keyed_score (d : SampleResult) (a : PyFloat.float * string) (s : PyFloat.float) :
  populated d = true ->
  In a (map (fun k => (score_of d k, k)) (Dict.keys d)) ->
  first_score d (snd a) = Ok s -> fst a = s.
Proof.
  intros Hp Ha Hs. apply in_map_iff in Ha. destruct Ha as (k & <- & Hk).
  simpl in *. rewrite (first_score_populated d k Hp Hk) in Hs. congruence.
Qed.

Lemma before_in {B : Type} (x y : B) (l : list B) : before x y l -> In x l /\ In y l.
Proof.
  intros (l1 & l2 & l3 & ->). split; apply in_or_app; right.
  - left. reflexivity.
  - right. apply in_or_app. right. left. reflexivity.
Qed.

Lemma sorted_descending (d : SampleResult) :
  comparable d = true ->
  descending d (sorted (map (fun k => (score_of d k, k)) (Dict.keys d)) true).
Proof.
  intros Hc g1 g2 s1 s2 Hb H1 H2.
  pose proof (comparable_populated d Hc) as Hp.
  rewrite (sorted_comparable d Hc) in Hb.
  set (keyed := map (fun k => (score_of d k, k)) (Dict.keys d)) in *.
  apply before_map_inv in Hb. destruct Hb as (a & b & <- & <- & Hb).
  destruct (before_in _ _ _ Hb) as [Ha' Hb'].
  assert (Hin : forall c, In c (rev (isort by_key (rev keyed))) -> In c keyed).
  { intros c Hc'. apply in_rev in Hc'.
    apply (Permutation_in _ (isort_perm by_key (rev keyed))) in Hc'.
    apply in_rev. exact Hc'. }
  pose proof (keyed_score d a s1 Hp (Hin a Ha') H1) as E1.
  pose proof (keyed_score d b s2 Hp (Hin b Hb') H2) as E2.
  assert (Hnum : forall c, In c keyed -> PyFloat.is_nan (fst c) = false).
  { intros c Hc'. apply in_map_iff in Hc'. destruct Hc' as (k & <- & Hk).
    apply score_of_number; assumption. }
  apply before_rev in Hb. rewrite rev_involutive in Hb.
  assert (Hasc : ascending by_key (isort by_key (rev keyed))).
  { apply (isort_ascending by_key (fun c => PyFloat.is_nan (fst c) = false)).
    - intros x y _ _. apply PyFloatFacts.ltb_asym.
    - intros x y z Hx Hy Hz. apply PyFloatFacts.ltb_negtrans; assumption.
    - apply Forall_rev, Forall_forall. exact Hnum. }
  pose proof (before_sorted _ _ _ _ Hasc Hb) as Hlt. unfold by_key in Hlt.
  rewrite E1, E2 in Hlt.
  apply PyFloatFacts.ltb_false_geb; [rewrite <- E1|rewrite <- E2|exact Hlt];
    apply Hnum; apply Hin; assumption.
Qed.

Lemma sorted_stable (d : SampleResult) :
  comparable d = true ->
  stable d (sorted (map (fun k => (score_of d k, k)) (Dict.keys d)) true).
Proof.
  intros Hc g1 g2 s1 s2 Hb H1 H2 Heq.
  pose proof (comparable_populated d Hc) as Hp.
  rewrite (sorted_comparable d Hc).
  destruct (before_in _ _ _ Hb) as [Hg1 Hg2].
  rewrite (first_score_populated d g1 Hp Hg1) in H1.
  rewrite (first_score_populated d g2 Hp Hg2) in H2.
  injection H1 as E1. injection H2 as E2.
  apply (before_map (fun k => (score_of d k, k))) in Hb.
  apply before_rev in Hb.
  apply (isort_stable by_key) in Hb.
  - apply before_rev in Hb. apply (before_map snd) in Hb. exact Hb.
  - unfold by_key. simpl. rewrite E1, E2. apply PyFloatFacts.eqb_ltb_false, Heq.
Qed.

End WriterFacts.

(** ** The result accumulator *)

Module DictFacts.
Section DictFacts.
Context {V : Type}.
Implicit Types (d : Dict.dict V) (k : string) (v : V).

Lemma get_set_same d k v : Dict.get k (Dict.set k v d) = Some v.
Proof.
  induction d as [|[k' v'] d IH]; simpl.
  - rewrite String.eqb_refl. reflexivity.
  - destruct (String.eqb k' k) eqn:E; simpl; rewrite E; [reflexivity|exact IH].
Qed.

Lemma get_set_other d k k' v : k' <> k -> Dict.get k' (Dict.set k v d) = Dict.get k' d.
Proof.
  intros Hne. induction d as [|[k0 v0] d IH]; simpl.
  - destruct (String.eqb_spec k k'); [congruence|reflexivity].
  - destruct (String.eqb_spec k0 k) as [->|Hk]; simpl.
    + destruct (String.eqb_spec k k'); [congruence|reflexivity].
    + destruct (String.eqb k0 k'); [reflexivity|exact IH].
Qed.

Lemma in_set d k v kv : In kv (Dict.set k v d) -> kv = (k, v) \/ In kv d.
Proof.
  induction d as [|[k0 v0] d IH]; simpl.
  - intros [<-|[]]. left. reflexivity.
  - destruct (String.eqb_spec k0 k) as [->|Hk]; simpl.
    + intros [<-|H]; [left; reflexivity|right; right; exact H].
    + intros [<-|H]; [right; left; reflexivity|].
      destruct (IH H) as [->|H']; [left; reflexivity|right; right; exact H'].
Qed.
End DictFacts.
End DictFacts.

Module AccumulatorFacts.
Import DictFacts.

(** The list built for one gene: the pairs [(pubmedId, float(score))] in the
    order of the response. *)
Lemma pubmed_loop_spec (l : list (score_field * string)) (xs : list PyFloat.float)
    (acc : list (string * PyFloat.float)) :
  Forall2 (fun r x => py_float (fst r) = Ok x) l xs ->
  pubmed_loop l acc = Ok (acc ++ combine (map snd l) xs).
Proof.
  intros H. revert acc. induction H as [|r x l xs Hr _ IH]; intros acc; simpl.
  - rewrite app_nil_r. reflexivity.
  - rewrite Hr, IH, <- app_assoc. reflexivity.
Qed.

Lemma pubmed_loop_length (l : list (score_field * string))
    (acc out : list (string * PyFloat.float)) :
  pubmed_loop l acc = Ok out -> List.length out = (List.length acc + List.length l)%nat.
Proof.
  revert acc. induction l as [|r l IH]; intros acc; simpl.
  - intros H. injection H as <-. lia.
  - destruct (py_float (fst r)); [|discriminate].
    intros H. rewrite (IH _ H), length_app. simpl. lia.
Qed.


Lemma digest_gene_cases (d d' : SampleResult) (gene : gene_entry) :
  digest_gene d gene = Ok d' ->
  exists l, pubmed_loop (snd gene) [] = Ok l /\
    d' = if filled gene then Dict.set (fst gene) l d else d.
Proof.
  unfold digest_gene. destruct (pubmed_loop (snd gene) []) as [l|e] eqn:Hl; [|discriminate].
  pose proof (pubmed_loop_length _ _ _ Hl) as Hlen. simpl in Hlen.
  unfold filled. intros H. exists l. split; [reflexivity|].
  destruct (snd gene); destruct l; simpl in *; try discriminate Hlen;
    injection H as <-; reflexivity.
Qed.

Lemma digest_gene_populated (d d' : SampleResult) (gene : gene_entry) :
  populated d = true -> digest_gene d gene = Ok d' -> populated d' = true.
Proof.
  intros Hp H. unfold digest_gene in H.
  destruct (pubmed_loop (snd gene) []) as [l|e]; [|discriminate].
  destruct l as [|x l]; simpl in H; injection H as <-; [exact Hp|].
  unfold populated in *. rewrite forallb_forall in *. intros kv Hin.
  destruct (in_set _ _ _ _ Hin) as [->|Hin']; [reflexivity|apply Hp, Hin'].
Qed.

Lemma digest_populated (genes : response) (d d' : SampleResult) :
  populated d = true -> digest d genes = Ok d' -> populated d' = true.
Proof.
  revert d. induction genes as [|gene genes IH]; intros d Hp; simpl.
  - intros H. injection H as <-. exact Hp.
  - destruct (digest_gene d gene) as [d1|e] eqn:H1; [|discriminate].
    apply IH. apply (digest_gene_populated d d1 gene Hp H1).
Qed.

Lemma merge_populated (responses : list response) (d d' : SampleResult) :
  populated d = true -> merge_chunks d responses = Ok d' -> populated d' = true.
Proof.
  revert d. induction responses as [|r responses IH]; intros d Hp; simpl.
  - intros H. injection H as <-. exact Hp.
  - destruct (digest d r) as [d1|e] eqn:H1; [|discriminate].
    apply IH. apply (digest_populated r d d1 Hp H1).
Qed.

Lemma digest_app (g1 g2 : response) (d : SampleResult) :
  digest d (g1 ++ g2)
  = match digest d g1 with Ok d1 => digest d1 g2 | Raise e => Raise e end.
Proof.
  revert d. induction g1 as [|gene g1 IH]; intros d; simpl; [reflexivity|].
  destruct (digest_gene d gene); [apply IH|reflexivity].
Qed.

(** Merging the responses one after the other is digesting their entries in
    one sequence. *)
Lemma merge_concat (responses : list response) (d : SampleResult) :
  merge_chunks d responses = digest d (List.concat responses).
Proof.
  revert d. induction responses as [|r responses IH]; intros d; simpl; [reflexivity|].
  rewrite digest_app. destruct (digest d r); [apply IH|reflexivity].
Qed.

Lemma digest_last_filled (entries : response) (d d' : SampleResult) (g : string) :
  digest d entries = Ok d' ->
  match last_filled_entry g entries with
  | Some raw => exists l, pubmed_loop raw [] = Ok l /\ Dict.get g d' = Some l
  | None => Dict.get g d' = Dict.get g d
  end.
Proof.
  revert d. induction entries as [|entry entries IH]; intros d; simpl.
  - intros H. injection H as <-. reflexivity.
  - destruct (digest_gene d entry) as [d1|e] eqn:H1; [|discriminate].
    intros H. specialize (IH d1 H).
    destruct (digest_gene_cases d d1 entry H1) as (l & Hl & Hd1).
    unfold last_filled_entry in *. simpl.
    destruct (filled entry) eqn:Hf; simpl.
    + destruct (last_entry g (filter filled entries)) as [raw|]; [exact IH|].
      destruct (String.eqb_spec (fst entry) g) as [<-|Hne].
      * exists l. split; [exact Hl|]. rewrite IH, Hd1. apply get_set_same.
      * rewrite IH, Hd1. apply get_set_other. congruence.
    + destruct (last_entry g (filter filled entries)) as [raw|]; [exact IH|].
      rewrite IH, Hd1. reflexivity.
Qed.

End AccumulatorFacts.

(** ** The orchestrator *)

Module OrchestratorFacts.


Lemma bind_ret {A B : Type} (m : M A) (f : A -> M B) (w w' : state)
    (t : list event) (a : A) :
  m w = (t, w', Ret a) ->
  bind m f w = (t ++ fst (fst (f a w')), snd (fst (f a w')), snd (f a w')).
Proof.
  intros H. unfold bind. rewrite H. destruct (f a w') as [[t2 w2] r]. reflexivity.
Qed.

(** One turn of the loop over the chunks, case by case. *)
Lemma chunk_body_eq (E : env) (lp : Dict.dict (list string)) (lovd : string)
    (total i : nat) (c : list string) (d : SampleResult) (w : state) :
  chunk_body E lp lovd total i c d w
  = match Dict.get lovd lp with
    | None => (chunk_line total i :: gate_events E w, ticked w, Halt (Uncaught TypeError))
    | Some phen =>
        let r := net E (posts w) (join "," c) (join "," phen) in
        let tr := chunk_line total i
                  :: gate_events E w ++ [Post (join "," c) (join "," phen)] in
        match failed r with
        | Some e => (tr, posted w, Halt (if caught e then SystemExit e else Uncaught e))
        | None =>
            match r with
            | Answers _ (Some genes) =>
                match digest d genes with
                | Ok d' => (tr, answered E w, Ret d')
                | Raise e => (tr, answered E w, Halt (Uncaught e))
                end
            | _ => (tr, answered E w, Halt (Uncaught JSONDecodeError))
            end
        end
    end.
Proof.
  unfold chunk_body, bind, print, emit, time, get_requestTime, waitTillElapsed,
    gate_events, chunk_line, ticked, posted, answered.
  cbn [requestTime ticks posts files].
  destruct (PyFloat.geb _ PyFloat.one); unfold ret, emit;
    (destruct (Dict.get lovd lp) as [phen|]; [|reflexivity]);
    unfold request, bind, post; cbn [requestTime ticks posts files];
    (destruct (net E (posts w) (join "," c) (join "," phen)) as [e|status body];
     unfold failed, raised, stop; [reflexivity|]);
    (destruct (raise_for_status status) as [u|e]; [|reflexivity]);
    unfold ret, set_requestTime, time, stop; cbn [requestTime ticks posts files];
    (destruct body as [genes|]; [|reflexivity]);
    destruct (digest d genes); reflexivity.
Qed.


Lemma chunk_body_files (E : env) (lp : Dict.dict (list string)) (lovd : string)
    (total i : nat) (c : list string) (d : SampleResult) (w : state) :
  files (snd (fst (chunk_body E lp lovd total i c d w))) = files w.
Proof.
  rewrite chunk_body_eq. destruct (Dict.get lovd lp); [|reflexivity]. cbv zeta.
  destruct (failed _); [reflexivity|].
  destruct (net E _ _ _) as [e|status [genes|]]; try reflexivity.
  destruct (digest d genes); reflexivity.
Qed.

Lemma chunk_loop_files (E : env) (lp : Dict.dict (list string)) (lovd : string)
    (total : nat) (cs : list (list string)) (i : nat) (d : SampleResult) (w : state) :
  files (snd (fst (chunk_loop E lp lovd total i cs d w))) = files w.
Proof.
  revert i d w. induction cs as [|c cs IH]; intros i d w; [reflexivity|].
  cbn [chunk_loop]. unfold bind.
  pose proof (chunk_body_files E lp lovd total i c d w) as Hb.
  destruct (chunk_body E lp lovd total i c d w) as [[t0 w0] [d0|h]]; [|exact Hb].
  specialize (IH (S i) d0 w0).
  destruct (chunk_loop E lp lovd total (S i) cs d0 w0) as [[t1 w1] r].
  simpl in *. congruence.
Qed.

Lemma chunk_body_populated (E : env) (lp : Dict.dict (list string)) (lovd : string)
    (total i : nat) (c : list string) (d d' : SampleResult) (w w' : state)
    (tr : list event) :
  populated d = true ->
  chunk_body E lp lovd total i c d w = (tr, w', Ret d') -> populated d' = true.
Proof.
  intros Hp. rewrite chunk_body_eq.
  destruct (Dict.get lovd lp); [|discriminate]. cbv zeta.
  destruct (failed _); [discriminate|].
  destruct (net E _ _ _) as [e|status [genes|]]; try discriminate.
  destruct (digest d genes) as [d1|e] eqn:Hd; [|discriminate].
  intros H. injection H as _ _ <-.
  apply (AccumulatorFacts.digest_populated genes d d1 Hp Hd).
Qed.

Lemma chunk_loop_populated (E : env) (lp : Dict.dict (list string)) (lovd : string)
    (total : nat) (cs : list (list string)) (i : nat) (d d' : SampleResult)
    (w w' : state) (tr : list event) :
  populated d = true ->
  chunk_loop E lp lovd total i cs d w = (tr, w', Ret d') -> populated d' = true.
Proof.
  revert i d d' w w' tr. induction cs as [|c cs IH]; intros i d d' w w' tr Hp.
  - simpl. unfold ret. intros H. injection H as _ _ <-. exact Hp.
  - cbn [chunk_loop]. unfold bind.
    destruct (chunk_body E lp lovd total i c d w) as [[t0 w0] [d0|h]] eqn:Hb;
      [|discriminate].
    pose proof (chunk_body_populated _ _ _ _ _ _ _ _ _ _ _ Hp Hb) as Hp0.
    destruct (chunk_loop E lp lovd total (S i) cs d0 w0) as [[t1 w1] [d1|h]] eqn:Hl;
      [|discriminate].
    intros H. injection H as _ _ <-. apply (IH _ _ _ _ _ _ Hp0 Hl).
Qed.


(** The run is the loop over the LOVDs from the seeded state. *)
Lemma job_eq (E : env) (lp : Dict.dict (list string)) (hgncs : list string)
    (outDir : string) (w : state) :
  retrieveAmelieResults E lp hgncs outDir w
  = lovd_loop E lp (chunkList hgncs 1000) outDir (Dict.keys lp) (seeded E w).
Proof.
  unfold retrieveAmelieResults, bind, time, set_requestTime, seeded.
  cbn [requestTime ticks posts files].
  destruct (lovd_loop E lp (chunkList hgncs 1000) outDir (Dict.keys lp) _)
    as [[t w'] r].
  reflexivity.
Qed.

(** A LOVD whose file exists, and one whose file does not. *)
Lemma lovd_body_skip (E : env) (lp : Dict.dict (list string))
    (hgncs : list (list string)) (outDir lovd : string) (w : state) :
  Dict.get (out_file outDir lovd) (files w) <> None ->
  lovd_body E lp hgncs outDir lovd w = ([Print ("# skipping: " ++ lovd)%string], w, Ret tt).
Proof.
  intros H. unfold lovd_body, bind, isfile.
  destruct (Dict.get (out_file outDir lovd) (files w)); [reflexivity|congruence].
Qed.

Lemma lovd_body_process (E : env) (lp : Dict.dict (list string))
    (hgncs : list (list string)) (outDir lovd : string) (w : state) :
  Dict.get (out_file outDir lovd) (files w) = None ->
  lovd_body E lp hgncs outDir lovd w
  = process_lovd E lp hgncs (out_file outDir lovd) lovd w.
Proof.
  intros H. unfold lovd_body, bind, isfile. rewrite H.
  destruct (process_lovd E lp hgncs (out_file outDir lovd) lovd w) as [[t w'] r].
  reflexivity.
Qed.

(** A LOVD during which the loop over the chunks stops. *)
Lemma process_lovd_halt (E : env) (lp : Dict.dict (list string))
    (hgncs : list (list string)) (outFile lovd : string) (w w' : state)
    (t : list event) (h : halt) :
  chunk_loop E lp lovd (List.length hgncs) 0 hgncs [] w = (t, w', Halt h) ->
  process_lovd E lp hgncs outFile lovd w
  = (Print ("# processing: " ++ lovd)%string :: t, w', Halt h).
Proof.
  intros H. unfold process_lovd, bind, print, emit. rewrite H. reflexivity.
Qed.

End OrchestratorFacts.

Module RunFacts.
Import OrchestratorFacts.




(** *** The rate limiter before the first request *)






End RunFacts.

(** ** The claims about the result writer *)

Ltac no_such_split H :=
  match type of H with
  | _ = (?l ++ _)%list =>
      destruct l; cbn [app] in H;
      [ try discriminate H; try (injection H as H; no_such_split H)
      | try discriminate H; injection H as _ H; no_such_split H ]
  | _ => discriminate H
  end.

(** C1, as amended.  For every SampleResult in which the first score of
    every gene is a number (not NaN), the writer puts the genes in the file
    by the score of the first entry of their lists, in descending order: if
    the line of g1 precedes the line of g2, the first score of g1 is >= the
    first score of g2. *)
Theorem C1_descending_without_nan (d : SampleResult) :
  comparable d = true ->
  exists genes,
    retrieveSortedAmelieList d = Ok genes /\
    lovd_file d
    = ((header ++ String.concat "" (map (gene_line d) genes))%string, None) /\
    descending d genes.
Proof.
  intros Hc.
  destruct (WriterFacts.sorted_list_populated d (WriterFacts.comparable_populated d Hc))
    as (Hs & _ & Hf).
  eexists. split; [exact Hs|]. split; [exact Hf|].
  apply WriterFacts.sorted_descending, Hc.
Qed.

Lemma C1_descending_without_nan_witness :
  comparable three_genes = true /\
  exists genes,
    retrieveSortedAmelieList three_genes = Ok genes /\
    lovd_file three_genes
    = ((header ++ String.concat "" (map (gene_line three_genes) genes))%string, None) /\
    descending three_genes genes.
Proof.
  split; [reflexivity|].
  apply (C1_descending_without_nan three_genes). reflexivity.
Defined.

(** C1 fails as stated.  With the two genes A, whose first score is NaN,
    and B, whose first score is 1.0, the line of A precedes the line of B
    although NaN >= 1.0 does not hold. *)
Lemma C1_nan_first_not_descending :
  digest [] nan_first_response = Ok nan_first /\
  populated nan_first = true /\
  Dict.wf nan_first /\
  retrieveSortedAmelieList nan_first = Ok ["A"; "B"] /\
  lovd_file nan_first
  = ((header ++ "A" ++ tab ++ "pm1:nan" ++ newline
             ++ "B" ++ tab ++ "pm2:1.0" ++ newline)%string, None) /\
  ~ descending nan_first ["A"; "B"].
Proof.
  split; [reflexivity|].
  split; [reflexivity|]. split; [repeat constructor; simpl; intuition discriminate|].
  split; [reflexivity|]. split; [vm_compute; reflexivity|].
  intros H.
  assert (Hb : ListSort.before "A" "B" ["A"; "B"]) by (exists [], [], []; reflexivity).
  specialize (H "A" "B" PyFloat.nan f1 Hb eq_refl eq_refl). discriminate H.
Qed.

(** C2.  The file written for a SampleResult starts with the header line
    [gene<TAB>scores]; then comes one line per gene: the gene symbol, a tab,
    the entries of the gene as [<evidenceId>:<score>] joined by commas, and a
    newline, with nothing after the last line.  Writing
    [{"BRCA1": [("pm1", 9.5), ("pm2", 3.1)]}] gives the two lines
    [gene<TAB>scores] and [BRCA1<TAB>pm1:9.5,pm2:3.1]. *)
Theorem C2_file_format :
  (forall (d : SampleResult) (outFile : string),
     populated d = true ->
     exists genes,
       retrieveSortedAmelieList d = Ok genes /\
       writeLovdResultsToFile d outFile
       = write_file outFile
           (header ++ String.concat "" (map (gene_line d) genes))%string /\
       forall g, In g genes ->
         exists l, Dict.get g d = Some l /\
           gene_line d g = (g ++ tab ++ join "," (map entry_text l) ++ newline)%string) /\
  header = ("gene" ++ tab ++ "scores" ++ newline)%string /\
  forall outFile : string,
    writeLovdResultsToFile brca1_result outFile
    = write_file outFile
        ("gene" ++ tab ++ "scores" ++ newline
         ++ "BRCA1" ++ tab ++ "pm1:9.5,pm2:3.1" ++ newline)%string.
Proof.
  split; [|split; [reflexivity|]].
  - intros d outFile Hp.
    destruct (WriterFacts.sorted_list_populated d Hp) as (Hs & Hperm & Hf).
    eexists. split; [exact Hs|]. split.
    + unfold writeLovdResultsToFile. rewrite Hf. reflexivity.
    + intros g Hg. apply (Permutation_in _ Hperm) in Hg.
      destruct (WriterFacts.get_of_key d g Hg) as (l & Hl & _).
      exists l. split; [exact Hl|]. unfold gene_line. rewrite Hl. reflexivity.
  - intros outFile. unfold writeLovdResultsToFile.
    replace (lovd_file brca1_result)
      with (("gene" ++ tab ++ "scores" ++ newline
             ++ "BRCA1" ++ tab ++ "pm1:9.5,pm2:3.1" ++ newline)%string, @None exn)
      by (vm_compute; reflexivity).
    reflexivity.
Qed.

Lemma C2_file_format_witness :
  populated brca1_result = true /\
  exists genes,
    retrieveSortedAmelieList brca1_result = Ok genes /\
    writeLovdResultsToFile brca1_result "out/sample.tsv"
    = write_file "out/sample.tsv"
        (header ++ String.concat "" (map (gene_line brca1_result) genes))%string /\
    forall g, In g genes ->
      exists l, Dict.get g brca1_result = Some l /\
        gene_line brca1_result g
        = (g ++ tab ++ join "," (map entry_text l) ++ newline)%string.
Proof.
  split; [reflexivity|].
  apply (proj1 C2_file_format brca1_result "out/sample.tsv"). reflexivity.
Defined.

(** C10, as amended.  Every gene of a SampleResult appears exactly once in
    the output; and when the first score of every gene is a number (not
    NaN), two genes whose first scores are equal are listed in the order in
    which they were inserted in the SampleResult. *)
Theorem C10_stable_without_nan (d : SampleResult) :
  Dict.wf d -> populated d = true ->
  exists genes,
    retrieveSortedAmelieList d = Ok genes /\
    NoDup genes /\
    (forall g, In g genes <-> In g (Dict.keys d)) /\
    (comparable d = true -> stable d genes).
Proof.
  intros Hwf Hp.
  destruct (WriterFacts.sorted_list_populated d Hp) as (Hs & Hperm & _).
  eexists. split; [exact Hs|]. split; [|split].
  - apply (Permutation_NoDup (Permutation_sym Hperm)). exact Hwf.
  - intros g. split; intros Hg.
    + apply (Permutation_in _ Hperm), Hg.
    + apply (Permutation_in _ (Permutation_sym Hperm)), Hg.
  - apply WriterFacts.sorted_stable.
Qed.

Lemma C10_stable_without_nan_witness :
  Dict.wf three_genes /\ populated three_genes = true /\
  exists genes,
    retrieveSortedAmelieList three_genes = Ok genes /\
    NoDup genes /\
    (forall g, In g genes <-> In g (Dict.keys three_genes)) /\
    (comparable three_genes = true -> stable three_genes genes).
Proof.
  assert (Hwf : Dict.wf three_genes)
    by (repeat constructor; simpl; intuition discriminate).
  split; [exact Hwf|]. split; [reflexivity|].
  apply (C10_stable_without_nan three_genes Hwf). reflexivity.
Defined.

(** C10 fails as stated.  In a SampleResult of seven genes where g0, g1,
    g2, g3 and g5 have the first score 0.0, g4 has NaN and g6 has 1.0, the
    gene g1 is listed ahead of g0 although g0 was inserted first and their
    first scores are equal. *)
Lemma C10_nan_among_seven_unstable :
  digest [] nan_among_seven_response = Ok nan_among_seven /\
  populated nan_among_seven = true /\
  Dict.wf nan_among_seven /\
  retrieveSortedAmelieList nan_among_seven
  = Ok ["g1"; "g4"; "g6"; "g0"; "g2"; "g3"; "g5"] /\
  ~ stable nan_among_seven ["g1"; "g4"; "g6"; "g0"; "g2"; "g3"; "g5"].
Proof.
  split; [vm_compute; reflexivity|].
  split; [reflexivity|]. split; [repeat constructor; simpl; intuition discriminate|].
  split; [vm_compute; reflexivity|].
  intros H.
  assert (Hb : ListSort.before "g0" "g1" (Dict.keys nan_among_seven)).
  { exists [], [], ["g2"; "g3"; "g4"; "g5"; "g6"]. reflexivity. }
  specialize (H "g0" "g1" f0 f0 Hb eq_refl eq_refl eq_refl).
  destruct H as (l1 & l2 & l3 & H). no_such_split H.
Qed.

(** ** The claims about the result accumulator *)

(** C4.  A gene whose list of evidence is empty once its entry of the
    response has been processed is not inserted: the entry leaves the
    SampleResult as it was, and every value list of the SampleResult that
    results from merging a sequence of chunk responses is non-empty, also
    in the loop over the chunks of the orchestrator. *)
Theorem C4_value_lists_non_empty :
  (forall (d : SampleResult) (g : string), digest_gene d (g, []) = Ok d) /\
  (forall (responses : list response) (d' : SampleResult),
     merge_chunks [] responses = Ok d' -> populated d' = true) /\
  (forall E lp lovd total i chunks w tr w' d',
     chunk_loop E lp lovd total i chunks [] w = (tr, w', Ret d') ->
     populated d' = true).
Proof.
  split; [reflexivity|]. split.
  - intros responses d'. apply AccumulatorFacts.merge_populated. reflexivity.
  - intros E lp lovd total i chunks w tr w' d'.
    apply OrchestratorFacts.chunk_loop_populated. reflexivity.
Qed.

Lemma C4_value_lists_non_empty_witness :
  merge_chunks [] [brca1_response]
  = Ok [("BRCA1", [("pm1", f9_5); ("pm2", f3_1)])] /\
  populated [("BRCA1", [("pm1", f9_5); ("pm2", f3_1)])] = true.
Proof.
  split; [reflexivity|].
  apply (proj1 (proj2 C4_value_lists_non_empty) [brca1_response]). reflexivity.
Defined.

(** C9.  For a gene entry of a response whose scores all convert to
    floats, the list built for the gene holds the pairs
    (evidenceId, float(score)) in the order of the response, duplicates of
    an evidenceId included; it is stored under the gene unless it is empty,
    in which case the SampleResult is left as it was. *)
Theorem C9_entries_in_response_order (d : SampleResult) (g : string)
    (raw : list (score_field * string)) (xs : list PyFloat.float) :
  Forall2 (fun r x => py_float (fst r) = Ok x) raw xs ->
  let built := combine (map snd raw) xs in
  map fst built = map snd raw /\ map snd built = xs /\
  pubmed_loop raw [] = Ok built /\
  exists d', digest_gene d (g, raw) = Ok d' /\
    (raw <> [] -> Dict.get g d' = Some built) /\
    (raw = [] -> d' = d).
Proof.
  intros H built.
  assert (Hlen : List.length (map snd raw) = List.length xs).
  { rewrite length_map. apply (Forall2_length H). }
  pose proof (AccumulatorFacts.pubmed_loop_spec raw xs [] H) as Hloop.
  simpl in Hloop. fold built in Hloop.
  split; [|split; [|split; [exact Hloop|]]].
  - unfold built. clear -Hlen. revert xs Hlen.
    induction (map snd raw) as [|a l IH]; intros [|x xs] Hlen; simpl in *;
      try discriminate; [reflexivity|]. f_equal. apply IH. lia.
  - unfold built. clear -Hlen. revert xs Hlen.
    induction (map snd raw) as [|a l IH]; intros [|x xs] Hlen; simpl in *;
      try discriminate; [reflexivity|]. f_equal. apply IH. lia.
  - unfold digest_gene. cbn [fst snd]. rewrite Hloop.
    destruct raw as [|r raw].
    + inversion H; subst. simpl. exists d. repeat split; congruence.
    + inversion H; subst. simpl. eexists. split; [reflexivity|]. split.
      * intros _. apply DictFacts.get_set_same.
      * discriminate.
Qed.

Lemma C9_entries_in_response_order_witness :
  let raw := [(JStr "9.5", "pm1"); (JStr "3.1", "pm2"); (JStr "9.5", "pm1")] in
  let xs := [f9_5; f3_1; f9_5] in
  Forall2 (fun r x => py_float (fst r) = Ok x) raw xs /\
  let built := combine (map snd raw) xs in
  map fst built = map snd raw /\ map snd built = xs /\
  pubmed_loop raw [] = Ok built /\
  exists d', digest_gene [] ("BRCA1", raw) = Ok d' /\
    (raw <> [] -> Dict.get "BRCA1" d' = Some built) /\
    (raw = [] -> d' = []).
Proof.
  intros raw xs.
  assert (H : Forall2 (fun r x => py_float (fst r) = Ok x) raw xs)
    by (repeat (constructor; [reflexivity|]); constructor).
  split; [exact H|].
  apply (C9_entries_in_response_order [] "BRCA1" raw xs H).
Defined.

(** C8, as amended.  Once all the chunks of a sample have been merged, the
    SampleResult maps a gene to the list of evidence built from the last
    entry for that gene, over the chunks in their order, that has at least
    one score (the later data replace the earlier ones, they are not
    added); a gene without such an entry is not a key. *)
Theorem C8_last_filled_entry_wins (responses : list response) (d' : SampleResult)
    (g : string) :
  merge_chunks [] responses = Ok d' ->
  match last_filled_entry g (List.concat responses) with
  | Some raw => exists l, pubmed_loop raw [] = Ok l /\ Dict.get g d' = Some l
  | None => Dict.get g d' = None
  end.
Proof.
  rewrite AccumulatorFacts.merge_concat. intros H.
  apply (AccumulatorFacts.digest_last_filled _ _ _ g H).
Qed.

Lemma C8_last_filled_entry_wins_witness :
  merge_chunks [] overwritten = Ok [("G", [("q", f9_5); ("q", f3_1)])] /\
  match last_filled_entry "G" (List.concat overwritten) with
  | Some raw =>
      exists l, pubmed_loop raw [] = Ok l /\
        Dict.get "G" [("G", [("q", f9_5); ("q", f3_1)])] = Some l
  | None => Dict.get "G" [("G", [("q", f9_5); ("q", f3_1)])] = None
  end.
Proof.
  split; [reflexivity|].
  apply (C8_last_filled_entry_wins overwritten). reflexivity.
Defined.

(** C8 fails as stated.  The gene G comes with one score in the first
    chunk and with no score in the second: the latest chunk in which it
    appears gives the empty list, and the SampleResult still maps G to the
    list of the first chunk. *)
Lemma C8_emptied_keeps_earlier_list :
  merge_chunks [] emptied = Ok [("G", [("p", f1)])] /\
  ~ latest_entry_wins emptied [("G", [("p", f1)])].
Proof.
  split; [reflexivity|]. intros H.
  specialize (H "G" [] [] eq_refl eq_refl). discriminate H.
Qed.

(** ** The claims about the orchestrator *)











(** ** The examples of the specification *)

(** Two genes with the first score 9.0 come before the gene with 5.0, in
    the order of their insertion. *)
Example sort_three_genes :
  retrieveSortedAmelieList three_genes = Ok ["BRCA1"; "EGFR"; "TP53"].
Proof. reflexivity. Qed.

(** After 0.75 s the rate limiter blocks for 0.25 s; after more than the
    minimum interval it returns at once. *)
Example rate_limiter_blocks :
  waitTillElapsed PyFloat.one f0_75 (start []) = ([Sleep f0_25], start [], Ret tt) /\
  waitTillElapsed PyFloat.one f9_5 (start []) = ([], start [], Ret tt).
Proof. split; reflexivity. Qed.

(** 1001 genes make two chunks, of 1000 genes and of one gene. *)
Example chunks_of_many_genes :
  map (@List.length string) (chunkList many_genes 1000) = [1000; 1] /\
  List.concat (chunkList many_genes 1000) = many_genes.
Proof. split; vm_compute; reflexivity. Qed.

(** The abort of the specification: the second request, for the second
    chunk of the first of three samples, is answered with the status 500;
    nothing is requested after it and no file is written. *)
Example abort_on_second_chunk :
  let run := retrieveAmelieResults failing_second three_samples many_genes "out" (start []) in
  snd run = Halt (SystemExit (HTTPError 500)) /\
  files (snd (fst run)) = [] /\
  posts (snd (fst run)) = 2 /\
  forallb (fun ev => match ev with Write _ _ => false | _ => true end) (fst (fst run)) = true.
Proof. vm_compute. repeat split; reflexivity. Qed.

(** The resume of the specification: with [sampleA.tsv] in place, sampleA
    is skipped and the two other samples are requested and written. *)
Example resume_skips_sample_a :
  let run := retrieveAmelieResults (steady 200 brca1_response) three_samples
               ["BRCA1"; "TP53"] "out" (start [("out/sampleA.tsv", "kept")]) in
  snd run = Ret tt /\
  Dict.keys (files (snd (fst run)))
  = ["out/sampleA.tsv"; "out/sampleB.tsv"; "out/sampleC.tsv"] /\
  Dict.get "out/sampleA.tsv" (files (snd (fst run))) = Some "kept" /\
  filter (fun ev => negb (quiet ev)) (fst (fst run))
  = [Post "BRCA1,TP53" "HP:0000002,HP:0000003";
     Write "out/sampleB.tsv" (header ++ "BRCA1" ++ tab ++ "pm1:9.5,pm2:3.1" ++ newline)%string;
     Post "BRCA1,TP53" "HP:0000004";
     Write "out/sampleC.tsv" (header ++ "BRCA1" ++ tab ++ "pm1:9.5,pm2:3.1" ++ newline)%string].
Proof. vm_compute. repeat split; reflexivity. Qed.

(** ** Further properties: the command line *)

Module CommandLineFacts.
Import StringFacts.

Lemma endswith_spec (s suffix : string) :
  endswith s suffix = true <-> exists p, s = (p ++ suffix)%string.
Proof.
  split.
  - induction s as [|c s IH]; cbn [endswith].
    + rewrite orb_false_r. intros H. apply String.eqb_eq in H. exists "". exact H.
    + intros H. apply orb_true_iff in H. destruct H as [H|H].
      * apply String.eqb_eq in H. exists "". exact H.
      * destruct (IH H) as (p & ->). exists (String c p). reflexivity.
  - intros (p & ->). induction p as [|c p IH]; cbn [append endswith].
    + destruct suffix; cbn [endswith]; rewrite String.eqb_refl; reflexivity.
    + rewrite IH. apply orb_true_r.
Qed.

Lemma last_part_no_slash (s : string) : has_slash (last_part s) = false.
Proof.
  induction s as [|c s IH]; simpl; [reflexivity|].
  destruct (Ascii.eqb c "/") eqn:Hc; [exact IH|].
  destruct (has_slash s) eqn:Hs; [exact IH|].
  simpl. rewrite Hc, Hs. reflexivity.
Qed.

Lemma last_part_whole (s : string) : has_slash s = false -> last_part s = s.
Proof.
  destruct s as [|c s]; simpl; [reflexivity|].
  destruct (Ascii.eqb c "/"); simpl; [discriminate|].
  intros ->. reflexivity.
Qed.

(** A path is its last part, or a directory, a slash and its last part. *)
Lemma last_part_split (s : string) :
  s = last_part s \/ exists dir, s = (dir ++ "/" ++ last_part s)%string.
Proof.
  induction s as [|c s IH]; simpl; [left; reflexivity|].
  destruct (Ascii.eqb_spec c "/") as [->|Hc].
  - right. destruct IH as [IH|(dir & IH)].
    + exists "". simpl. f_equal. exact IH.
    + exists (String "/" dir). simpl. f_equal. exact IH.
  - destruct (has_slash s) eqn:Hs; [|left; reflexivity].
    right. destruct IH as [IH|(dir & IH)].
    + rewrite IH in Hs. rewrite last_part_no_slash in Hs. discriminate.
    + exists (String c dir). simpl. f_equal. exact IH.
Qed.

Lemma complaint_shape (paths reasons : list string) (path reason : string) :
  In path paths -> In reason reasons ->
  exists path' reason',
    In path' paths /\ In reason' reasons /\
    complaint path reason = (quote ++ last_part path' ++ quote ++ reason')%string /\
    has_slash (last_part path') = false /\
    (path' = last_part path' \/
     exists dir, path' = (dir ++ "/" ++ last_part path')%string).
Proof.
  intros Hp Hr. exists path, reason.
  split; [exact Hp|]. split; [exact Hr|]. split; [reflexivity|].
  split; [apply last_part_no_slash|apply last_part_split].
Qed.

End CommandLineFacts.

(** X1.  The command line is accepted exactly when the HPO file is an
    existing file whose name ends with [.obo], the HGNC file an existing
    file whose name ends with [.txt], the benchmark file an existing file
    whose name ends with [.tsv], and the output path an existing directory;
    the arguments are then returned as they were given. *)
Theorem X1_command_line_accepted (d : disk) (args : Namespace) :
  (parseCommandLine d args = Accepted args <->
   (exists p, hpo args = (p ++ ".obo")%string) /\ is_file d (hpo args) = true /\
   (exists p, hgnc args = (p ++ ".txt")%string) /\ is_file d (hgnc args) = true /\
   (exists p, tsv args = (p ++ ".tsv")%string) /\ is_file d (tsv args) = true /\
   is_dir d (out args) = true) /\
  (forall a, parseCommandLine d args = Accepted a -> a = args).
Proof.
  rewrite <- !CommandLineFacts.endswith_spec. unfold parseCommandLine.
  destruct (endswith (hpo args) ".obo"), (is_file d (hpo args)),
    (endswith (hgnc args) ".txt"), (is_file d (hgnc args)),
    (endswith (tsv args) ".tsv"), (is_file d (tsv args)), (is_dir d (out args));
    simpl; (split; [split; [intros H; try discriminate H; repeat split
                          |intros (? & ? & ? & ? & ? & ? & ?); try discriminate; reflexivity]
                  |intros a H; try discriminate H; injection H as <-; reflexivity]).
Qed.

Lemma X1_command_line_accepted_witness :
  parseCommandLine benchmark_disk benchmark_args = Accepted benchmark_args.
Proof.
  apply (proj1 (X1_command_line_accepted benchmark_disk benchmark_args)).
  split; [exists "data/hp"; reflexivity|]. split; [reflexivity|].
  split; [exists "data/hgnc_complete_set"; reflexivity|]. split; [reflexivity|].
  split; [exists "data/benchmark_data"; reflexivity|]. split; reflexivity.
Defined.

(** X2.  When the command line is rejected, the message is the last part
    of one of the four arguments, what follows its last slash, between
    double quotes, followed by one of the five reasons: the directories of
    the argument are not shown. *)
Theorem X2_rejection_names_last_part (d : disk) (args : Namespace) (message : string) :
  parseCommandLine d args = ParserError message ->
  exists path reason,
    In path [hpo args; hgnc args; tsv args; out args] /\
    In reason [" is not an .obo file"; " is not a .txt file"; " is not a .tsv file";
               " is not an existing file"; " is not a valid directory"] /\
    message = (quote ++ last_part path ++ quote ++ reason)%string /\
    has_slash (last_part path) = false /\
    (path = last_part path \/ exists dir, path = (dir ++ "/" ++ last_part path)%string).
Proof.
  unfold parseCommandLine.
  repeat match goal with
         | |- context [if negb ?b then _ else _] => destruct b; cbn [negb]
         end;
    intros H; try discriminate H; injection H as <-;
    apply CommandLineFacts.complaint_shape; simpl; tauto.
Qed.

Lemma X2_rejection_names_last_part_witness :
  parseCommandLine benchmark_disk wrong_hgnc_args
  = ParserError (quote ++ "genes.csv" ++ quote ++ " is not a .txt file")%string /\
  exists path reason,
    In path [hpo wrong_hgnc_args; hgnc wrong_hgnc_args; tsv wrong_hgnc_args;
             out wrong_hgnc_args] /\
    In reason [" is not an .obo file"; " is not a .txt file"; " is not a .tsv file";
               " is not an existing file"; " is not a valid directory"] /\
    (quote ++ "genes.csv" ++ quote ++ " is not a .txt file")%string
    = (quote ++ last_part path ++ quote ++ reason)%string /\
    has_slash (last_part path) = false /\
    (path = last_part path \/ exists dir, path = (dir ++ "/" ++ last_part path)%string).
Proof.
  split; [reflexivity|].
  apply (X2_rejection_names_last_part benchmark_disk wrong_hgnc_args). reflexivity.
Defined.

(** ** Further properties: the accumulator and the writer *)

Module MergeFacts.
Import OrchestratorFacts.

Lemma accepted_spec (r : reply) (genes : response) :
  accepted r = Some genes <->
  failed r = None /\ exists status, r = Answers status (Some genes).
Proof.
  unfold accepted, failed. destruct r as [e|status [body|]].
  - split; [discriminate|]. intros [H _]. discriminate H.
  - destruct (raise_for_status status); split.
    + intros H. injection H as ->. split; [reflexivity|]. exists status. reflexivity.
    + intros (_ & s & H). injection H as _ ->. reflexivity.
    + discriminate.
    + intros [H _]. discriminate H.
  - split; [destruct (raise_for_status status); discriminate|].
    intros (_ & s & H). discriminate H.
Qed.

(** One turn of the loop gives a SampleResult exactly when the reply is
    accepted and its body is digested. *)
Lemma chunk_body_ret (E : env) (lp : Dict.dict (list string)) (lovd : string)
    (phen : list string) (total i : nat) (c : list string) (d d' : SampleResult)
    (w : state) :
  Dict.get lovd lp = Some phen ->
  (exists tr w', chunk_body E lp lovd total i c d w = (tr, w', Ret d')) <->
  (exists genes,
     accepted (net E (posts w) (join "," c) (join "," phen)) = Some genes /\
     digest d genes = Ok d').
Proof.
  intros Hphen. rewrite chunk_body_eq, Hphen. cbv zeta.
  set (r := net E (posts w) (join "," c) (join "," phen)).
  split.
  - intros (tr & w' & H).
    destruct (failed r) eqn:Hf; [discriminate|].
    destruct r as [e|status [genes|]] eqn:Hr; try discriminate.
    destruct (digest d genes) as [d1|e] eqn:Hd; [|discriminate].
    injection H as _ _ <-. exists genes. split; [|exact Hd].
    apply accepted_spec. split; [exact Hf|]. exists status. reflexivity.
  - intros (genes & Ha & Hd). apply accepted_spec in Ha.
    destruct Ha as (Hf & status & Hr). rewrite Hf, Hr, Hd. eauto.
Qed.

Lemma chunk_body_ret_posts (E : env) (lp : Dict.dict (list string)) (lovd : string)
    (total i : nat) (c : list string) (d d' : SampleResult) (w w' : state)
    (tr : list event) :
  chunk_body E lp lovd total i c d w = (tr, w', Ret d') -> posts w' = S (posts w).
Proof.
  rewrite chunk_body_eq. destruct (Dict.get lovd lp); [|discriminate]. cbv zeta.
  destruct (failed _); [discriminate|].
  destruct (net E _ _ _) as [e|status [genes|]]; try discriminate.
  destruct (digest d genes); [|discriminate].
  intros H. injection H as _ <- _. reflexivity.
Qed.

Lemma keys_set {V : Type} (d : Dict.dict V) (k : string) (v : V) :
  Dict.keys (Dict.set k v d)
  = if existsb (String.eqb k) (Dict.keys d) then Dict.keys d else Dict.keys d ++ [k].
Proof.
  unfold Dict.keys. induction d as [|[k' v'] d IH]; [reflexivity|].
  cbn [Dict.set map fst existsb]. rewrite (String.eqb_sym k k').
  destruct (String.eqb k' k); cbn [orb map fst]; [reflexivity|].
  rewrite IH. destruct (existsb (String.eqb k) (map fst d)); reflexivity.
Qed.

Lemma see_nodup (ks : list string) (entry : gene_entry) :
  NoDup ks -> NoDup (see ks entry).
Proof.
  intros H. unfold see. destruct (filled entry); [|exact H]. simpl.
  destruct (existsb (String.eqb (fst entry)) ks) eqn:Hex; [exact H|]. simpl.
  apply NoDup_rev in H. rewrite <- (rev_involutive (ks ++ [fst entry])).
  apply NoDup_rev. rewrite rev_app_distr. simpl. constructor; [|exact H].
  intros Hin. apply in_rev in Hin.
  assert (Ht : existsb (String.eqb (fst entry)) ks = true).
  { apply existsb_exists. exists (fst entry). split; [exact Hin|apply String.eqb_refl]. }
  congruence.
Qed.

Lemma digest_gene_keys (d d' : SampleResult) (entry : gene_entry) :
  digest_gene d entry = Ok d' -> Dict.keys d' = see (Dict.keys d) entry.
Proof.
  intros H. destruct (AccumulatorFacts.digest_gene_cases d d' entry H) as (l & _ & ->).
  unfold see. destruct (filled entry); [|reflexivity].
  rewrite keys_set. simpl.
  destruct (existsb (String.eqb (fst entry)) (Dict.keys d)); reflexivity.
Qed.

Lemma get_of_in_wf {V : Type} (d : Dict.dict V) (k : string) (v : V) :
  Dict.wf d -> In (k, v) d -> Dict.get k d = Some v.
Proof.
  unfold Dict.wf. induction d as [|[k' v'] d IH]; simpl; [intros _ []|].
  intros Hnd Hin. inversion Hnd as [|? ? Hk Hnd']; subst.
  destruct (String.eqb_spec k' k) as [->|Hne].
  - destruct Hin as [Heq|Hin]; [congruence|].
    exfalso. apply Hk. apply (in_map fst) in Hin. exact Hin.
  - destruct Hin as [Heq|Hin]; [congruence|]. apply IH; assumption.
Qed.

Lemma with_keys_raise (d : SampleResult) (ks : list string) (e : exn) :
  with_keys d ks = Raise e -> e = IndexError.
Proof.
  induction ks as [|k ks IH]; simpl; [discriminate|].
  unfold first_score at 1.
  destruct (Dict.get k d) as [[|entry l]|].
  - intros H. injection H as <-. reflexivity.
  - destruct (with_keys d ks); [discriminate|]. intros H. injection H as <-.
    apply IH. reflexivity.
  - intros H. injection H as <-. reflexivity.
Qed.

Lemma with_keys_missing (d : SampleResult) (ks : list string) (k : string) :
  In k ks -> first_score d k = Raise IndexError -> with_keys d ks = Raise IndexError.
Proof.
  intros Hin Hk. destruct (with_keys d ks) as [l|e] eqn:Hw.
  - exfalso. revert l Hw. induction ks as [|k' ks IH]; [destruct Hin|].
    simpl. intros l. destruct (first_score d k') as [s|e] eqn:Hs; [|discriminate].
    destruct (with_keys d ks) as [l'|e] eqn:Hw'; [|discriminate].
    intros _. destruct Hin as [->|Hin]; [congruence|].
    apply (IH Hin l'). reflexivity.
  - rewrite (with_keys_raise d ks e Hw). reflexivity.
Qed.

End MergeFacts.

(** X3.  For a LOVD that has phenotypes, the loop over the chunks gives a
    SampleResult exactly when every reply passes the [try] block and
    decodes, and the bodies merge without error; the SampleResult is then
    the merge of the bodies in the order of the chunks. *)
Theorem X3_chunk_loop_merges_replies (E : env) (lp : Dict.dict (list string))
    (lovd : string) (phen : list string) (total : nat) (chunks : list (list string))
    (i : nat) (d d' : SampleResult) (w : state) :
  Dict.get lovd lp = Some phen ->
  (exists tr w', chunk_loop E lp lovd total i chunks d w = (tr, w', Ret d')) <->
  (exists bodies,
     map accepted (replies E (join "," phen) (posts w) chunks) = map Some bodies /\
     merge_chunks d bodies = Ok d').
Proof.
  intros Hphen. revert i d w. induction chunks as [|c chunks IH]; intros i d w.
  - simpl. unfold ret. split.
    + intros (tr & w' & H). injection H as _ _ <-. exists []. split; reflexivity.
    + intros (bodies & Hb & Hm). destruct bodies; [|discriminate].
      simpl in Hm. injection Hm as <-. eauto.
  - cbn [chunk_loop replies map]. split.
    + intros (tr & w' & H). unfold bind in H.
      destruct (chunk_body E lp lovd total i c d w) as [[t0 w0] [d0|h]] eqn:Hb;
        [|discriminate].
      destruct (chunk_loop E lp lovd total (S i) chunks d0 w0) as [[t1 w1] [d1|h]] eqn:Hl;
        [|discriminate].
      injection H as _ _ <-.
      pose proof (MergeFacts.chunk_body_ret_posts _ _ _ _ _ _ _ _ _ _ _ Hb) as Hposts.
      destruct (proj1 (MergeFacts.chunk_body_ret E lp lovd phen total i c d d0 w Hphen))
        as (genes & Ha & Hd); [eauto|].
      destruct (proj1 (IH (S i) d0 w0)) as (bodies & Hbs & Hm); [eauto|].
      exists (genes :: bodies). rewrite Hposts in Hbs. simpl.
      rewrite Ha, Hbs, Hd. split; [reflexivity|exact Hm].
    + intros (bodies & Hbs & Hm). destruct bodies as [|genes bodies]; [discriminate|].
      simpl in Hbs, Hm. injection Hbs as Ha Hbs.
      destruct (digest d genes) as [d0|e] eqn:Hd; [|discriminate].
      destruct (proj2 (MergeFacts.chunk_body_ret E lp lovd phen total i c d d0 w Hphen))
        as (t0 & w0 & Hb); [eauto|].
      pose proof (MergeFacts.chunk_body_ret_posts _ _ _ _ _ _ _ _ _ _ _ Hb) as Hposts.
      destruct (proj2 (IH (S i) d0 w0)) as (t1 & w1 & Hl).
      { exists bodies. rewrite Hposts. split; assumption. }
      exists (t0 ++ t1), w1. unfold bind. rewrite Hb, Hl. reflexivity.
Qed.

Lemma X3_chunk_loop_merges_replies_witness :
  let E := steady 200 brca1_response in
  Dict.get "sampleA" three_samples = Some ["HP:0000001"] /\
  exists tr w',
    chunk_loop E three_samples "sampleA" 2 0 [["BRCA1"]; ["TP53"]] [] (start [])
    = (tr, w', Ret [("BRCA1", [("pm1", f9_5); ("pm2", f3_1)])]).
Proof.
  intros E. split; [reflexivity|].
  apply (X3_chunk_loop_merges_replies E three_samples "sampleA" ["HP:0000001"] 2
           [["BRCA1"]; ["TP53"]] 0 [] _ (start []) eq_refl).
  exists [brca1_response; brca1_response]. split; reflexivity.
Defined.

(** X4.  The SampleResult keeps its genes in the order in which they first
    came with at least one score, after the genes it held before, and no
    gene is a key twice. *)
Theorem X4_genes_in_order_of_first_score (d d' : SampleResult) (entries : response) :
  digest d entries = Ok d' ->
  Dict.keys d' = first_seen (Dict.keys d) entries /\
  (Dict.wf d -> Dict.wf d').
Proof.
  unfold first_seen, Dict.wf. revert d.
  induction entries as [|entry entries IH]; intros d; simpl.
  - intros H. injection H as <-. auto.
  - destruct (digest_gene d entry) as [d1|e] eqn:H1; [|discriminate].
    intros H. destruct (IH d1 H) as [Hk Hwf].
    rewrite (MergeFacts.digest_gene_keys d d1 entry H1) in Hk, Hwf.
    split; [exact Hk|]. intros Hd. apply Hwf, MergeFacts.see_nodup, Hd.
Qed.

Lemma X4_genes_in_order_of_first_score_witness :
  let entries := [("TP53", []); ("EGFR", [(JStr "1.0", "p")]);
                  ("BRCA1", [(JStr "9.5", "q")]); ("EGFR", [(JStr "3.1", "q")]);
                  ("TP53", [(JStr "1.0", "p")])] in
  let d' := [("EGFR", [("q", f3_1)]); ("BRCA1", [("q", f9_5)]); ("TP53", [("p", f1)])] in
  digest [] entries = Ok d' /\
  Dict.keys d' = first_seen (Dict.keys (@nil (string * list (string * PyFloat.float))))
                   entries /\
  (Dict.wf (@nil (string * list (string * PyFloat.float))) -> Dict.wf d').
Proof.
  intros entries d'. split; [reflexivity|].
  apply (X4_genes_in_order_of_first_score [] d' entries). reflexivity.
Defined.

(** X5.  With unique keys, the sorted list of genes exists exactly when
    every gene has at least one entry.  A gene without entry makes the sort
    key raise IndexError: the writer then leaves a file that holds the
    header only, and the error goes up uncaught. *)
Theorem X5_sorted_list_needs_entries (d : SampleResult) :
  Dict.wf d ->
  (populated d = true <-> exists genes, retrieveSortedAmelieList d = Ok genes) /\
  (populated d = false ->
   retrieveSortedAmelieList d = Raise IndexError /\
   forall outFile,
     writeLovdResultsToFile d outFile
     = (write_file outFile header ;; stop (Uncaught IndexError))).
Proof.
  intros Hwf.
  assert (Hfail : populated d = false -> retrieveSortedAmelieList d = Raise IndexError).
  { intros Hp. unfold populated in Hp.
    assert (Hex : exists kv, In kv d /\ snd kv = []).
    { clear Hwf. induction d as [|kv d IH]; [discriminate|]. simpl in Hp.
      destruct (snd kv) eqn:Hkv.
      - exists kv. split; [left; reflexivity|exact Hkv].
      - destruct (IH Hp) as (kv' & Hin & Hs). exists kv'. split; [right|]; assumption. }
    destruct Hex as ([k v] & Hin & Hv). simpl in Hv. subst v.
    unfold retrieveSortedAmelieList.
    rewrite (MergeFacts.with_keys_missing d (Dict.keys d) k); [reflexivity| |].
    - apply (in_map fst) in Hin. exact Hin.
    - unfold first_score. rewrite (MergeFacts.get_of_in_wf d k [] Hwf Hin). reflexivity. }
  split; [split|].
  - intros Hp. destruct (WriterFacts.sorted_list_populated d Hp) as (Hs & _). eauto.
  - intros (genes & Hs). destruct (populated d) eqn:Hp; [reflexivity|].
    rewrite (Hfail eq_refl) in Hs. discriminate.
  - intros Hp. split; [apply Hfail, Hp|].
    intros outFile. unfold writeLovdResultsToFile, lovd_file.
    rewrite (Hfail Hp). reflexivity.
Qed.

Lemma X5_sorted_list_needs_entries_witness :
  let d : SampleResult := [("BRCA1", [("pm1", f9_5)]); ("TP53", [])] in
  Dict.wf d /\
  (populated d = true <-> exists genes, retrieveSortedAmelieList d = Ok genes) /\
  (populated d = false ->
   retrieveSortedAmelieList d = Raise IndexError /\
   forall outFile,
     writeLovdResultsToFile d outFile
     = (write_file outFile header ;; stop (Uncaught IndexError))).
Proof.
  intros d.
  assert (Hwf : Dict.wf d) by (repeat constructor; simpl; intuition discriminate).
  split; [exact Hwf|]. apply (X5_sorted_list_needs_entries d Hwf).
Defined.

(** ** Further properties: the run as a whole *)

Module TraceFacts.
Import OrchestratorFacts.

(** The three ways in which the turn of a LOVD can go: it is skipped, the
    loop over its chunks stops, or its file is written. *)
Lemma lovd_body_cases (E : env) (lp : Dict.dict (list string))
    (chunks : list (list string)) (outDir lovd : string) (w : state) :
  (exists content,
     Dict.get (out_file outDir lovd) (files w) = Some content /\
     lovd_body E lp chunks outDir lovd w = ([skipping_line lovd], w, Ret tt)) \/
  (Dict.get (out_file outDir lovd) (files w) = None /\
   exists t w1 h,
     chunk_loop E lp lovd (List.length chunks) 0 chunks [] w = (t, w1, Halt h) /\
     lovd_body E lp chunks outDir lovd w = (processing_line lovd :: t, w1, Halt h)) \/
  (Dict.get (out_file outDir lovd) (files w) = None /\
   exists t w1 d genes,
     chunk_loop E lp lovd (List.length chunks) 0 chunks [] w = (t, w1, Ret d) /\
     populated d = true /\
     retrieveSortedAmelieList d = Ok genes /\
     lovd_body E lp chunks outDir lovd w
     = (processing_line lovd
          :: t ++ [Write (out_file outDir lovd) (file_text d genes)],
        wrote (out_file outDir lovd) (file_text d genes) w1, Ret tt)).
Proof.
  destruct (Dict.get (out_file outDir lovd) (files w)) as [content|] eqn:Hfile.
  - left. exists content. split; [reflexivity|].
    apply lovd_body_skip. congruence.
  - right. rewrite (lovd_body_process _ _ _ _ _ _ Hfile).
    destruct (chunk_loop E lp lovd (List.length chunks) 0 chunks [] w)
      as [[t w1] [d|h]] eqn:Hl.
    + right. split; [reflexivity|].
      assert (Hp : populated d = true)
        by (apply (chunk_loop_populated E lp lovd _ chunks 0 [] d w w1 t eq_refl Hl)).
      destruct (WriterFacts.sorted_list_populated d Hp) as (Hs & _ & Hf).
      exists t, w1, d, (ListSort.sorted (map (fun k => (score_of d k, k)) (Dict.keys d)) true).
      split; [reflexivity|]. split; [exact Hp|]. split; [exact Hs|].
      unfold process_lovd, bind, print, emit. rewrite Hl.
      unfold writeLovdResultsToFile. rewrite Hf. reflexivity.
    + left. split; [reflexivity|]. exists t, w1, h. split; [reflexivity|].
      apply process_lovd_halt, Hl.
Qed.

Lemma lovd_loop_cons (E : env) (lp : Dict.dict (list string))
    (chunks : list (list string)) (outDir lovd : string) (lovds : list string)
    (w : state) :
  lovd_loop E lp chunks outDir (lovd :: lovds) w
  = match lovd_body E lp chunks outDir lovd w with
    | (t1, w1, Ret _) =>
        (t1 ++ fst (fst (lovd_loop E lp chunks outDir lovds w1)),
         snd (fst (lovd_loop E lp chunks outDir lovds w1)),
         snd (lovd_loop E lp chunks outDir lovds w1))
    | (t1, w1, Halt h) => (t1, w1, Halt h)
    end.
Proof.
  cbn [lovd_loop]. unfold bind.
  destruct (lovd_body E lp chunks outDir lovd w) as [[t1 w1] [u|h]]; [|reflexivity].
  destruct (lovd_loop E lp chunks outDir lovds w1) as [[t2 w2] r]. reflexivity.
Qed.

Lemma chunk_loop_cons (E : env) (lp : Dict.dict (list string)) (lovd : string)
    (total i : nat) (c : list string) (cs : list (list string)) (d : SampleResult)
    (w : state) :
  chunk_loop E lp lovd total i (c :: cs) d w
  = match chunk_body E lp lovd total i c d w with
    | (t1, w1, Ret d1) =>
        (t1 ++ fst (fst (chunk_loop E lp lovd total (S i) cs d1 w1)),
         snd (fst (chunk_loop E lp lovd total (S i) cs d1 w1)),
         snd (chunk_loop E lp lovd total (S i) cs d1 w1))
    | (t1, w1, Halt h) => (t1, w1, Halt h)
    end.
Proof.
  cbn [chunk_loop]. unfold bind.
  destruct (chunk_body E lp lovd total i c d w) as [[t1 w1] [d1|h]]; [|reflexivity].
  destruct (chunk_loop E lp lovd total (S i) cs d1 w1) as [[t2 w2] r]. reflexivity.
Qed.

(** *** Files *)

Lemma lovd_loop_keeps (E : env) (lp : Dict.dict (list string))
    (chunks : list (list string)) (outDir : string) (lovds : list string) (w : state)
    (path content : string) :
  Dict.get path (files w) = Some content ->
  Dict.get path (files (snd (fst (lovd_loop E lp chunks outDir lovds w)))) = Some content.
Proof.
  revert w. induction lovds as [|lovd lovds IH]; intros w Hget; [exact Hget|].
  rewrite lovd_loop_cons.
  destruct (lovd_body_cases E lp chunks outDir lovd w)
    as [(c & Hf & Hb)|[(Hf & t & w1 & h & Hl & Hb)|(Hf & t & w1 & d & genes & Hl & _ & _ & Hb)]];
    rewrite Hb; cbn [fst snd].
  - apply IH, Hget.
  - pose proof (chunk_loop_files E lp lovd (List.length chunks) chunks 0 [] w) as Hfiles.
    rewrite Hl in Hfiles. cbn [fst snd] in Hfiles. rewrite Hfiles. exact Hget.
  - apply IH. cbn [wrote files].
    pose proof (chunk_loop_files E lp lovd (List.length chunks) chunks 0 [] w) as Hfiles.
    rewrite Hl in Hfiles. cbn [fst snd] in Hfiles. rewrite Hfiles.
    rewrite DictFacts.get_set_other; [exact Hget|]. congruence.
Qed.

(** After a run that came to its end every LOVD has its file. *)
Lemma lovd_loop_done (E : env) (lp : Dict.dict (list string))
    (chunks : list (list string)) (outDir : string) (lovds : list string)
    (w w' : state) (tr : list event) (lovd : string) :
  lovd_loop E lp chunks outDir lovds w = (tr, w', Ret tt) ->
  In lovd lovds ->
  Dict.get (out_file outDir lovd) (files w') <> None.
Proof.
  revert w tr. induction lovds as [|l lovds IH]; intros w tr Hrun Hin; [destruct Hin|].
  rewrite lovd_loop_cons in Hrun.
  destruct (lovd_body_cases E lp chunks outDir l w)
    as [(c & Hf & Hb)|[(Hf & t & w1 & h & Hl & Hb)|(Hf & t & w1 & d & genes & Hl & _ & _ & Hb)]];
    rewrite Hb in Hrun; [| discriminate Hrun |].
  - destruct (lovd_loop E lp chunks outDir lovds w) as [[t2 w2] r] eqn:Hrest.
    cbn [fst snd] in Hrun. injection Hrun as _ <- ->.
    destruct Hin as [<-|Hin]; [|apply (IH _ _ Hrest Hin)].
    pose proof (lovd_loop_keeps E lp chunks outDir lovds w _ _ Hf) as Hk.
    rewrite Hrest in Hk. cbn [fst snd] in Hk. congruence.
  - set (w2 := wrote (out_file outDir l) (file_text d genes) w1) in *.
    destruct (lovd_loop E lp chunks outDir lovds w2) as [[t2 w3] r] eqn:Hrest.
    cbn [fst snd] in Hrun. injection Hrun as _ <- ->.
    destruct Hin as [<-|Hin]; [|apply (IH _ _ Hrest Hin)].
    pose proof (lovd_loop_keeps E lp chunks outDir lovds w2 (out_file outDir l)
                  (file_text d genes) (DictFacts.get_set_same _ _ _)) as Hk.
    rewrite Hrest in Hk. cbn [fst snd] in Hk. congruence.
Qed.

Lemma lovd_loop_all_skipped (E : env) (lp : Dict.dict (list string))
    (chunks : list (list string)) (outDir : string) (lovds : list string) (w : state) :
  (forall lovd, In lovd lovds -> Dict.get (out_file outDir lovd) (files w) <> None) ->
  lovd_loop E lp chunks outDir lovds w = (map skipping_line lovds, w, Ret tt).
Proof.
  induction lovds as [|lovd lovds IH]; intros Hall; [reflexivity|].
  rewrite lovd_loop_cons, lovd_body_skip by (apply Hall; left; reflexivity).
  rewrite IH by (intros l Hl; apply Hall; right; exact Hl). reflexivity.
Qed.

(** *** What the loop over the chunks emits *)



End TraceFacts.

(** X6.  A run leaves the files that exist when it starts as they are:
    whatever the replies of the service and however the run ends, each of
    them is still there with the same content. *)
Theorem X6_existing_files_are_kept (E : env) (lp : Dict.dict (list string))
    (hgncs : list string) (outDir : string) (w : state) (path content : string) :
  Dict.get path (files w) = Some content ->
  Dict.get path (files (snd (fst (retrieveAmelieResults E lp hgncs outDir w))))
  = Some content.
Proof.
  intros H. rewrite OrchestratorFacts.job_eq. apply TraceFacts.lovd_loop_keeps. exact H.
Qed.

Lemma X6_existing_files_are_kept_witness :
  let w := start [("out/sampleB.tsv", "kept"); ("out/notes.txt", "mine")] in
  Dict.get "out/sampleB.tsv" (files w) = Some "kept" /\
  Dict.get "out/sampleB.tsv"
    (files (snd (fst (retrieveAmelieResults (steady 200 brca1_response) three_samples
                        ["BRCA1"; "TP53"] "out" w))))
  = Some "kept".
Proof.
  intros w. split; [reflexivity|].
  apply (X6_existing_files_are_kept (steady 200 brca1_response) three_samples
           ["BRCA1"; "TP53"] "out" w "out/sampleB.tsv" "kept").
  reflexivity.
Defined.

(** X10.  After a run that came to its end, a second run over the same
    samples and the same output directory skips every sample: it sends no
    request and writes no file, whatever the genes and the service are. *)
Theorem X10_second_run_skips_all (E : env) (lp : Dict.dict (list string))
    (hgncs : list string) (outDir : string) (w w' : state) (tr : list event)
    (E2 : env) (hgncs2 : list string) (w2 : state) :
  retrieveAmelieResults E lp hgncs outDir w = (tr, w', Ret tt) ->
  files w2 = files w' ->
  retrieveAmelieResults E2 lp hgncs2 outDir w2
  = (map skipping_line (Dict.keys lp), seeded E2 w2, Ret tt).
Proof.
  intros Hrun Hfiles. rewrite OrchestratorFacts.job_eq in *.
  apply TraceFacts.lovd_loop_all_skipped. intros lovd Hin.
  cbn [seeded files]. rewrite Hfiles.
  apply (TraceFacts.lovd_loop_done _ _ _ _ _ _ _ _ _ Hrun Hin).
Qed.

Lemma X10_second_run_skips_all_witness :
  exists tr w',
    retrieveAmelieResults (steady 200 brca1_response) three_samples ["BRCA1"; "TP53"]
      "out" (start []) = (tr, w', Ret tt) /\
    files (start (files w')) = files w' /\
    retrieveAmelieResults early three_samples many_genes "out" (start (files w'))
    = (map skipping_line (Dict.keys three_samples), seeded early (start (files w')),
       Ret tt).
Proof.
  pose (first := retrieveAmelieResults (steady 200 brca1_response) three_samples
                   ["BRCA1"; "TP53"] "out" (start [])).
  assert (H : first = (fst (fst first), snd (fst first), Ret tt))
    by (vm_compute; reflexivity).
  exists (fst (fst first)), (snd (fst first)).
  split; [exact H|]. split; [exact eq_refl|].
  apply (X10_second_run_skips_all (steady 200 brca1_response) three_samples
           ["BRCA1"; "TP53"] "out" (start []) (snd (fst first)) (fst (fst first))
           early many_genes (start (files (snd (fst first)))) H eq_refl).
Defined.

Module RunTraceFacts.
Import OrchestratorFacts TraceFacts.

(** *** Files that are written *)


(** *** Where [exit(e)] comes from *)

Lemma chunk_loop_exit (E : env) (lp : Dict.dict (list string)) (lovd : string)
    (total : nat) (cs : list (list string)) (i : nat) (d : SampleResult)
    (w w' : state) (tr : list event) (e : exn) :
  chunk_loop E lp lovd total i cs d w = (tr, w', Halt (SystemExit e)) ->
  caught e = true /\
  exists pre genes phenotypes,
    tr = pre ++ [Post genes phenotypes] /\
    failed (net E (Nat.pred (posts w')) genes phenotypes) = Some e.
Proof.
  revert i d w tr. induction cs as [|c cs IH]; intros i d w tr; [discriminate|].
  rewrite chunk_loop_cons, chunk_body_eq.
  destruct (Dict.get lovd lp) as [phen|]; [|discriminate]. cbv zeta.
  destruct (failed (net E (posts w) (join "," c) (join "," phen))) as [e0|] eqn:Hf.
  - destruct (caught e0) eqn:Hc; [|discriminate].
    intros H. injection H as <- <- <-. split; [exact Hc|].
    exists (chunk_line total i :: gate_events E w), (join "," c), (join "," phen).
    split; [reflexivity|exact Hf].
  - destruct (net E (posts w) (join "," c) (join "," phen)) as [e0|status [genes|]];
      try discriminate.
    destruct (digest d genes) as [d1|e1]; [|discriminate].
    destruct (chunk_loop E lp lovd total (S i) cs d1 (answered E w))
      as [[t2 w2] r] eqn:Hl.
    cbn [fst snd]. intros H. injection H as <- <- ->.
    destruct (IH _ _ _ _ Hl) as (Hc & pre & g & p & -> & Hfail).
    split; [exact Hc|]. eexists (_ ++ pre), g, p. split; [|exact Hfail].
    exact (app_assoc (chunk_line total i :: gate_events E w ++ [Post _ _]) pre [Post g p]).
Qed.

Lemma lovd_loop_exit (E : env) (lp : Dict.dict (list string))
    (chunks : list (list string)) (outDir : string) (lovds : list string)
    (w w' : state) (tr : list event) (e : exn) :
  lovd_loop E lp chunks outDir lovds w = (tr, w', Halt (SystemExit e)) ->
  caught e = true /\
  exists pre genes phenotypes,
    tr = pre ++ [Post genes phenotypes] /\
    failed (net E (Nat.pred (posts w')) genes phenotypes) = Some e.
Proof.
  revert w tr. induction lovds as [|lovd lovds IH]; intros w tr; [discriminate|].
  rewrite lovd_loop_cons.
  destruct (lovd_body_cases E lp chunks outDir lovd w)
    as [(c & Hf & Hb)|[(Hf & t & w1 & h & Hl & Hb)|(Hf & t & w1 & d & genes & Hl & Hp & Hs & Hb)]];
    rewrite Hb.
  - destruct (lovd_loop E lp chunks outDir lovds w) as [[t2 w2] r] eqn:Hrest.
    cbn [fst snd]. intros H. injection H as <- <- ->.
    destruct (IH _ _ Hrest) as (Hc & pre & g & p & -> & Hfail).
    split; [exact Hc|]. exists (skipping_line lovd :: pre), g, p. split; [reflexivity|exact Hfail].
  - intros H. injection H as <- <- ->.
    destruct (chunk_loop_exit _ _ _ _ _ _ _ _ _ _ _ Hl) as (Hc & pre & g & p & -> & Hfail).
    split; [exact Hc|]. exists (processing_line lovd :: pre), g, p.
    split; [reflexivity|exact Hfail].
  - destruct (lovd_loop E lp chunks outDir lovds _) as [[t2 w2] r] eqn:Hrest.
    cbn [fst snd]. intros H. injection H as <- <- ->.
    destruct (IH _ _ Hrest) as (Hc & pre & g & p & -> & Hfail).
    split; [exact Hc|]. eexists (_ ++ pre), g, p. split; [|exact Hfail].
    exact (app_assoc (processing_line lovd :: t ++ [Write _ _]) pre [Post g p]).
Qed.

(** *** The requests of a run that comes to its end *)

Lemma length_append (a b : string) :
  String.length (a ++ b) = (String.length a + String.length b)%nat.
Proof. induction a as [|c a IH]; simpl; [reflexivity|]. rewrite IH. reflexivity. Qed.

Lemma append_inj_l (p a b : string) : (p ++ a = p ++ b)%string -> a = b.
Proof. induction p as [|c p IH]; simpl; [auto|]. intros H. injection H as H. auto. Qed.

Lemma append_inj_r (a b s : string) : (a ++ s = b ++ s)%string -> a = b.
Proof.
  revert b. induction a as [|c a IH]; intros b H.
  - destruct b as [|c' b]; [reflexivity|].
    apply (f_equal String.length) in H. rewrite !length_append in H.
      cbn [String.length] in H. lia.
  - destruct b as [|c' b].
    + apply (f_equal String.length) in H. rewrite !length_append in H.
      cbn [String.length] in H. lia.
    + simpl in H. injection H as -> H. f_equal. apply IH, H.
Qed.

Lemma out_file_inj (outDir a b : string) : out_file outDir a = out_file outDir b -> a = b.
Proof.
  unfold out_file. intros H.
  apply append_inj_l in H. apply (append_inj_l "/") in H.
  apply append_inj_r in H. exact H.
Qed.




(** *** The pace of the requests *)

Lemma paced_trace_app (E : env) (n j : nat) (t1 t2 : list event) :
  paced_trace E n j t1 ->
  paced_trace E n (j + List.length (filter is_post t1)) t2 ->
  paced_trace E n j (t1 ++ t2).
Proof.
  unfold paced_trace. intros H1 H2.
  rewrite !filter_app, length_app, seq_app, map_app, concat_app, H1, H2. reflexivity.
Qed.

Lemma paced_trace_silent (E : env) (n j : nat) (t : list event) :
  filter is_sleep t = [] -> filter is_post t = [] -> paced_trace E n j t.
Proof. unfold paced_trace. intros -> ->. reflexivity. Qed.

Lemma gate_events_paced (E : env) (n j : nat) (w : state) :
  paced E n j w -> gate_events E w = gate E n j.
Proof.
  intros [Ht Hr]. unfold gate_events, gate. rewrite Ht, Hr. reflexivity.
Qed.

Lemma gate_all_sleep (E : env) (n j : nat) :
  filter is_sleep (gate E n j) = gate E n j /\ filter is_post (gate E n j) = [].
Proof. unfold gate. destruct (PyFloat.geb _ _); split; reflexivity. Qed.

Lemma answered_paced (E : env) (n j : nat) (w : state) :
  paced E n j w -> paced E n (j + 1) (answered E w).
Proof.
  intros [Ht Hr]. unfold paced, answered. cbn [ticks requestTime]. rewrite Ht.
  replace (j + 1)%nat with (S j) by lia. split; [lia|]. f_equal. lia.
Qed.

(** One turn of the loop over the chunks, for a LOVD that has phenotypes. *)
Lemma chunk_body_paced (E : env) (lp : Dict.dict (list string)) (lovd : string)
    (total i : nat) (c : list string) (d : SampleResult) (w w' : state)
    (tr : list event) (r : res SampleResult) (n j : nat) :
  Dict.get lovd lp <> None -> paced E n j w ->
  chunk_body E lp lovd total i c d w = (tr, w', r) ->
  paced_trace E n j tr /\ List.length (filter is_post tr) = 1 /\
  (forall d', r = Ret d' -> paced E n (j + 1) w').
Proof.
  intros Hphen Hp. rewrite chunk_body_eq, (gate_events_paced E n j w Hp).
  destruct (Dict.get lovd lp) as [phen|]; [|congruence]. cbv zeta.
  destruct (gate_all_sleep E n j) as [Hs Hq].
  assert (Htr : paced_trace E n j
                  (chunk_line total i
                     :: gate E n j ++ [Post (join "," c) (join "," phen)]) /\
                List.length (filter is_post
                  (chunk_line total i
                     :: gate E n j ++ [Post (join "," c) (join "," phen)])) = 1).
  { unfold paced_trace, chunk_line. cbn [filter is_sleep is_post].
    rewrite !filter_app, Hs, Hq. simpl. rewrite !app_nil_r. split; reflexivity. }
  destruct Htr as [Htr Hlen].
  destruct (failed _).
  - intros H. injection H as <- _ <-.
      split; [exact Htr|]. split; [exact Hlen|]. intros d' Hd. discriminate Hd.
  - destruct (net E _ _ _) as [e0|status [genes|]].
    + intros H. injection H as <- _ <-.
      split; [exact Htr|]. split; [exact Hlen|]. intros d' Hd. discriminate Hd.
    + destruct (digest d genes).
      * intros H. injection H as <- <- <-.
        split; [exact Htr|]. split; [exact Hlen|].
        intros d' _. apply answered_paced, Hp.
      * intros H. injection H as <- _ <-.
      split; [exact Htr|]. split; [exact Hlen|]. intros d' Hd. discriminate Hd.
    + intros H. injection H as <- _ <-.
      split; [exact Htr|]. split; [exact Hlen|]. intros d' Hd. discriminate Hd.
Qed.

Lemma chunk_loop_paced (E : env) (lp : Dict.dict (list string)) (lovd : string)
    (total : nat) (cs : list (list string)) (i : nat) (d : SampleResult)
    (w w' : state) (tr : list event) (r : res SampleResult) (n j : nat) :
  Dict.get lovd lp <> None -> paced E n j w ->
  chunk_loop E lp lovd total i cs d w = (tr, w', r) ->
  paced_trace E n j tr /\
  (forall d', r = Ret d' -> paced E n (j + List.length (filter is_post tr)) w').
Proof.
  intros Hphen. revert i d w tr j. induction cs as [|c cs IH]; intros i d w tr j Hp.
  - simpl. unfold ret. intros H. injection H as <- <- <-.
    split; [apply paced_trace_silent; reflexivity|].
    intros _ _. simpl. rewrite Nat.add_0_r. exact Hp.
  - rewrite chunk_loop_cons.
    destruct (chunk_body E lp lovd total i c d w) as [[t1 w1] [d1|h]] eqn:Hb;
      destruct (chunk_body_paced _ _ _ _ _ _ _ _ _ _ _ _ _ Hphen Hp Hb) as (Ht1 & Hlen & Hw1).
    + destruct (chunk_loop E lp lovd total (S i) cs d1 w1) as [[t2 w2] r2] eqn:Hl.
      cbn [fst snd]. intros H. injection H as <- <- <-.
      destruct (IH _ _ _ _ _ (Hw1 d1 eq_refl) Hl) as [Ht2 Hw2].
      split.
      * apply paced_trace_app; [exact Ht1|]. rewrite Hlen. exact Ht2.
      * intros d' Hr. rewrite filter_app, length_app, Hlen, Nat.add_assoc.
        apply (Hw2 d' Hr).
    + intros H. injection H as <- <- <-. split; [exact Ht1|discriminate].
Qed.

Lemma lovd_loop_paced (E : env) (lp : Dict.dict (list string))
    (chunks : list (list string)) (outDir : string) (lovds : list string)
    (w : state) (n j : nat) :
  (forall lovd, In lovd lovds -> Dict.get lovd lp <> None) -> paced E n j w ->
  paced_trace E n j (fst (fst (lovd_loop E lp chunks outDir lovds w))).
Proof.
  revert w j. induction lovds as [|lovd lovds IH]; intros w j Hall Hp.
  - apply paced_trace_silent; reflexivity.
  - rewrite lovd_loop_cons.
    assert (Hrest : forall lovd0, In lovd0 lovds -> Dict.get lovd0 lp <> None)
      by (intros l Hl; apply Hall; right; exact Hl).
    destruct (lovd_body_cases E lp chunks outDir lovd w)
      as [(c & Hf & Hb)|[(Hf & t & w1 & h & Hl & Hb)|(Hf & t & w1 & d & genes & Hl & _ & _ & Hb)]];
      rewrite Hb; cbn [fst snd].
    + apply (paced_trace_app E n j [skipping_line lovd]);
        [apply paced_trace_silent; reflexivity|].
      simpl. rewrite Nat.add_0_r. apply IH; assumption.
    + destruct (chunk_loop_paced _ _ _ _ _ _ _ _ _ _ _ n j
                  (Hall lovd (or_introl eq_refl)) Hp Hl) as [Ht _].
      apply (paced_trace_app E n j [processing_line lovd]);
        [apply paced_trace_silent; reflexivity|].
      simpl. rewrite Nat.add_0_r. exact Ht.
    + destruct (chunk_loop_paced _ _ _ _ _ _ _ _ _ _ _ n j
                  (Hall lovd (or_introl eq_refl)) Hp Hl) as [Ht Hw1].
      specialize (Hw1 d eq_refl).
      apply (paced_trace_app E n j
               (processing_line lovd
                  :: t ++ [Write (out_file outDir lovd) (file_text d genes)])).
      * apply (paced_trace_app E n j [processing_line lovd]);
          [apply paced_trace_silent; reflexivity|].
        simpl. rewrite Nat.add_0_r.
        apply paced_trace_app; [exact Ht|apply paced_trace_silent; reflexivity].
      * unfold processing_line. cbn [filter is_post]. rewrite filter_app.
        cbn [filter is_post]. rewrite app_nil_r.
        apply IH; [exact Hrest|]. exact Hw1.
Qed.

End RunTraceFacts.



(** X8.  A run that ends with [exit(e)] ends right after a request: the
    last thing it did was to send a request, the service failed that request
    with [e], and [e] is a connection error, an HTTP error or a read
    timeout.  Nothing else makes the program exit this way. *)
Theorem X8_exit_follows_failed_request (E : env) (lp : Dict.dict (list string))
    (hgncs : list string) (outDir : string) (w w' : state) (tr : list event)
    (e : exn) :
  retrieveAmelieResults E lp hgncs outDir w = (tr, w', Halt (SystemExit e)) ->
  caught e = true /\
  exists pre genes phenotypes,
    tr = pre ++ [Post genes phenotypes] /\
    failed (net E (Nat.pred (posts w')) genes phenotypes) = Some e.
Proof.
  rewrite OrchestratorFacts.job_eq. apply RunTraceFacts.lovd_loop_exit.
Qed.

Lemma X8_exit_follows_failed_request_witness :
  exists tr w',
    retrieveAmelieResults failing_second one_sample many_genes "out" (start [])
    = (tr, w', Halt (SystemExit (HTTPError 500))) /\
    caught (HTTPError 500) = true /\
    exists pre genes phenotypes,
      tr = pre ++ [Post genes phenotypes] /\
      failed (net failing_second (Nat.pred (posts w')) genes phenotypes)
      = Some (HTTPError 500).
Proof.
  pose (run := retrieveAmelieResults failing_second one_sample many_genes "out"
                 (start [])).
  assert (H : run = (fst (fst run), snd (fst run), Halt (SystemExit (HTTPError 500))))
    by (vm_compute; reflexivity).
  exists (fst (fst run)), (snd (fst run)).
  split; [exact H|].
  exact (X8_exit_follows_failed_request failing_second one_sample many_genes "out"
           (start []) (snd (fst run)) (fst (fst run)) (HTTPError 500) H).
Defined.



(** X11.  The rate limiter keeps the pace of the whole run, across the
    samples: the pauses of a run are, in order, those of the check made
    before each of its requests, the first check comparing the clock with
    the negated first reading and every later one with the reading made
    after the previous answer, whichever sample that answer was for. *)
Theorem X11_pauses_follow_every_request (E : env) (lp : Dict.dict (list string))
    (hgncs : list string) (outDir : string) (w : state) :
  paced_trace E (ticks w) 0 (fst (fst (retrieveAmelieResults E lp hgncs outDir w))).
Proof.
  rewrite OrchestratorFacts.job_eq. apply RunTraceFacts.lovd_loop_paced.
  - intros lovd Hin. destruct (WriterFacts.get_of_key lp lovd Hin) as (v & Hv & _).
    rewrite Hv. discriminate.
  - unfold paced, seeded. cbn [ticks requestTime]. split; [lia|reflexivity].
Qed.

(** ** Further properties: the sorted list, the progress lines, the files *)

Module FinishFacts.
Import ListSortFacts WriterFacts DictFacts OrchestratorFacts TraceFacts RunTraceFacts.

Lemma with_keys_snd (d : SampleResult) (ks : list string)
    (l : list (PyFloat.float * string)) :
  with_keys d ks = Ok l -> map snd l = ks.
Proof.
  revert l. induction ks as [|k ks IH]; intros l; simpl.
  - intros H. injection H as <-. reflexivity.
  - destruct (first_score d k) as [s|e]; [|discriminate].
    destruct (with_keys d ks) as [l'|e]; [|discriminate].
    intros H. injection H as <-. simpl. rewrite (IH l' eq_refl). reflexivity.
Qed.





Lemma lovd_loop_every_file (E : env) (lp : Dict.dict (list string))
    (chunks : list (list string)) (outDir : string) (lovds : list string)
    (w w' : state) (tr : list event) (lovd : string) :
  lovd_loop E lp chunks outDir lovds w = (tr, w', Ret tt) ->
  In lovd lovds ->
  exists text,
    Dict.get (out_file outDir lovd) (files w') = Some text /\
    (Dict.get (out_file outDir lovd) (files w) = Some text \/
     exists d genes,
       populated d = true /\ retrieveSortedAmelieList d = Ok genes /\
       text = file_text d genes).
Proof.
  revert w tr. induction lovds as [|l lovds IH]; intros w tr Hrun Hin; [destruct Hin|].
  rewrite lovd_loop_cons in Hrun.
  destruct (lovd_body_cases E lp chunks outDir l w)
    as [(c & Hf & Hb)|[(Hf & t & w1 & h & Hl & Hb)|(Hf & t & w1 & d & genes & Hl & Hp & Hs & Hb)]];
    rewrite Hb in Hrun; [| discriminate Hrun |].
  - destruct (lovd_loop E lp chunks outDir lovds w) as [[t2 w2] r] eqn:Hrest.
    cbn [fst snd] in Hrun. injection Hrun as _ <- ->.
    destruct Hin as [<-|Hin]; [|apply (IH _ _ Hrest Hin)].
    pose proof (lovd_loop_keeps E lp chunks outDir lovds w _ _ Hf) as Hk.
    rewrite Hrest in Hk. cbn [fst snd] in Hk.
    exists c. split; [exact Hk|left; exact Hf].
  - set (w2 := wrote (out_file outDir l) (file_text d genes) w1) in *.
    destruct (lovd_loop E lp chunks outDir lovds w2) as [[t2 w3] r] eqn:Hrest.
    cbn [fst snd] in Hrun. injection Hrun as _ <- ->.
    pose proof (lovd_loop_keeps E lp chunks outDir lovds w2 (out_file outDir l)
                  (file_text d genes) (get_set_same _ _ _)) as Hk.
    rewrite Hrest in Hk. cbn [fst snd] in Hk.
    destruct (String.eqb_spec lovd l) as [->|Hne].
    + exists (file_text d genes). split; [exact Hk|]. right. exists d, genes. auto.
    + destruct Hin as [Heq|Hin]; [congruence|].
      destruct (IH _ _ Hrest Hin) as (text & Hget & [Hold|Hnew]).
      * exists text. split; [exact Hget|]. left.
        unfold w2 in Hold. cbn [wrote files] in Hold.
        rewrite get_set_other in Hold
          by (intros Heq; apply out_file_inj in Heq; contradiction).
        pose proof (chunk_loop_files E lp lovd (List.length chunks) chunks 0 [] w) as Hfiles.
        pose proof (chunk_loop_files E lp l (List.length chunks) chunks 0 [] w) as Hfl.
        rewrite Hl in Hfl. cbn [fst snd] in Hfl. rewrite <- Hfl. exact Hold.
      * exists text. split; [exact Hget|]. right. exact Hnew.
Qed.

End FinishFacts.

(** X12.  The sorted list holds every gene of the SampleResult once, as
    its keys do: whatever the scores are, NaN among them or not, sorting
    neither loses nor repeats a gene. *)
Theorem X12_sorted_list_permutes_genes (d : SampleResult) (genes : list string) :
  retrieveSortedAmelieList d = Ok genes -> Permutation genes (Dict.keys d).
Proof.
  unfold retrieveSortedAmelieList.
  destruct (with_keys d (Dict.keys d)) as [keyed|e] eqn:Hk; [|discriminate].
  intros H. injection H as <-. unfold ListSort.sorted.
  rewrite (ListSortFacts.sort_perm ListSort.by_key true keyed).
  rewrite (FinishFacts.with_keys_snd d _ _ Hk). reflexivity.
Qed.

Lemma X12_sorted_list_permutes_genes_witness :
  retrieveSortedAmelieList nan_among_seven
  = Ok ["g1"; "g4"; "g6"; "g0"; "g2"; "g3"; "g5"] /\
  Permutation ["g1"; "g4"; "g6"; "g0"; "g2"; "g3"; "g5"] (Dict.keys nan_among_seven).
Proof.
  assert (H : retrieveSortedAmelieList nan_among_seven
              = Ok ["g1"; "g4"; "g6"; "g0"; "g2"; "g3"; "g5"])
    by (vm_compute; reflexivity).
  split; [exact H|].
  exact (X12_sorted_list_permutes_genes nan_among_seven _ H).
Defined.



(** X14.  After a run that came to its end, every sample has its file in
    the output directory: the file that was there when the run started,
    unchanged, or the complete sorted file of a result with at least one
    score for each of its genes. *)
Theorem X14_finished_run_has_every_file (E : env) (lp : Dict.dict (list string))
    (hgncs : list string) (outDir : string) (w w' : state) (tr : list event)
    (lovd : string) :
  retrieveAmelieResults E lp hgncs outDir w = (tr, w', Ret tt) ->
  In lovd (Dict.keys lp) ->
  exists text,
    Dict.get (out_file outDir lovd) (files w') = Some text /\
    (Dict.get (out_file outDir lovd) (files w) = Some text \/
     exists d genes,
       populated d = true /\ retrieveSortedAmelieList d = Ok genes /\
       text = file_text d genes).
Proof.
  rewrite OrchestratorFacts.job_eq. intros Hrun Hin.
  exact (FinishFacts.lovd_loop_every_file E lp (chunkList hgncs 1000) outDir
           (Dict.keys lp) (seeded E w) w' tr lovd Hrun Hin).
Qed.

Lemma X14_finished_run_has_every_file_witness :
  let E := steady 200 brca1_response in
  let w := start [(out_file "out" "sampleB", "kept")] in
  exists tr w',
    retrieveAmelieResults E three_samples ["BRCA1"; "TP53"] "out" w = (tr, w', Ret tt) /\
    In "sampleC" (Dict.keys three_samples) /\
    exists text,
      Dict.get (out_file "out" "sampleC") (files w') = Some text /\
      (Dict.get (out_file "out" "sampleC") (files w) = Some text \/
       exists d genes,
         populated d = true /\ retrieveSortedAmelieList d = Ok genes /\
         text = file_text d genes).
Proof.
  intros E w.
  pose (run := retrieveAmelieResults E three_samples ["BRCA1"; "TP53"] "out" w).
  assert (H : run = (fst (fst run), snd (fst run), Ret tt))
    by (vm_compute; reflexivity).
  assert (Hin : In "sampleC" (Dict.keys three_samples))
    by (right; right; left; reflexivity).
  exists (fst (fst run)), (snd (fst run)).
  split; [exact H|]. split; [exact Hin|].
  exact (X14_finished_run_has_every_file E three_samples ["BRCA1"; "TP53"] "out" w
           (snd (fst run)) (fst (fst run)) "sampleC" H Hin).
Defined.
